(** * Photo ingestion and social ranking: a shallow embedding of the triphoto
    frontend (gallery visibility, reaction toggles, input validation, batched
    upload with session logging, retry). *)

From Stdlib Require Import List ZArith Bool Lia String Ascii Permutation.
Import ListNotations.
Open Scope Z_scope.

(** ** JavaScript strings

    A JS string is a sequence of UTF-16 code units; we keep it as [list Z].
    ASCII literals are converted with [js]; the Hangul literals of the
    source are written out as code units. *)

Definition jstr := list Z.

Definition js (s : string) : jstr :=
  map (fun a => Z.of_nat (nat_of_ascii a)) (list_ascii_of_string s).

Fixpoint jeqb (a b : jstr) : bool :=
  match a, b with
  | [], [] => true
  | x :: a', y :: b' => Z.eqb x y && jeqb a' b'
  | _, _ => false
  end.

(** [String.prototype.startsWith] and [String.prototype.includes]. *)
Fixpoint startsWith (s pre : jstr) : bool :=
  match pre, s with
  | [], _ => true
  | c :: pre', d :: s' => Z.eqb c d && startsWith s' pre'
  | _ :: _, [] => false
  end.

Fixpoint includes (s sub : jstr) : bool :=
  startsWith s sub ||
  match s with
  | [] => false
  | _ :: s' => includes s' sub
  end.

(** Truthiness of a string in [a || b]: the empty string is falsy. *)
Definition js_or (a b : jstr) : jstr :=
  match a with [] => b | _ => a end.

(** ** Data model (src/frontend/src/types, src/unnamed/part_002) *)

Record Photo := mkPhoto {
  photo_id : jstr;
  like_count : Z;
  dislike_count : Z
}.

(** ** PhotoGallery.tsx: the visible photo set *)

(** [localPhotos.filter(photo => photo.dislike_count === 0)] *)
Definition visiblePhotos (localPhotos : list Photo) : list Photo :=
  filter (fun photo => Z.eqb (dislike_count photo) 0) localPhotos.

(** ** Input validation helpers (validateInput, src/unnamed/part_001) *)

Definition is_hex (c : Z) : bool :=
  ((48 <=? c) && (c <=? 57)) || ((97 <=? c) && (c <=? 102))
  || ((65 <=? c) && (c <=? 70)).

Fixpoint hex_run (n : nat) (s : jstr) : option jstr :=
  match n with
  | O => Some s
  | S n' => match s with
            | c :: s' => if is_hex c then hex_run n' s' else None
            | [] => None
            end
  end.

Definition dash : Z := 45.

(** [/^[0-9a-f]{8}-[0-9a-f]{4}-[0-9a-f]{4}-[0-9a-f]{4}-[0-9a-f]{12}$/i] *)
Fixpoint uuid_groups (gs : list nat) (s : jstr) : bool :=
  match gs with
  | [] => match s with [] => true | _ => false end
  | [g] => match hex_run g s with Some [] => true | _ => false end
  | g :: gs' =>
      match hex_run g s with
      | Some (c :: rest) => Z.eqb c dash && uuid_groups gs' rest
      | _ => false
      end
  end.

Definition validRoomId (roomId : jstr) : bool :=
  uuid_groups [8; 4; 4; 4; 12]%nat roomId.

(** One character of [[가-힣a-zA-Z0-9._-]]. *)
Definition name_char (c : Z) : bool :=
  ((44032 <=? c) && (c <=? 55203)) || ((97 <=? c) && (c <=? 122))
  || ((65 <=? c) && (c <=? 90)) || ((48 <=? c) && (c <=? 57))
  || Z.eqb c 46 || Z.eqb c 95 || Z.eqb c 45.

(** [userName.length >= 2 && userName.length <= 50 && /^[가-힣a-zA-Z0-9._-]+$/.test(userName)] *)
Definition validUserName (userName : jstr) : bool :=
  (2 <=? Z.of_nat (List.length userName)) && (Z.of_nat (List.length userName) <=? 50)
  && forallb name_char userName && negb (jeqb userName []).

Record File := mkFile {
  name : jstr;
  size : Z;
  type : jstr
}.

Definition allowedTypes : list jstr :=
  [js "image/jpeg"; js "image/jpg"; js "image/png"; js "image/gif"; js "image/webp"].

Definition maxSize : Z := 10 * 1024 * 1024.

Record Validation := mkValidation {
  valid : bool;
  verror : option jstr
}.

(** [validateInput.file] *)
Definition validateFile (file : File) : Validation :=
  if negb (existsb (jeqb (type file)) allowedTypes) then
    mkValidation false (Some (js "Invalid file type. Only JPEG, PNG, GIF, and WebP are allowed."))
  else if size file >? maxSize then
    mkValidation false (Some (js "File too large. Maximum size is 10MB."))
  else if includes (name file) (js "..") || includes (name file) (js "/")
          || includes (name file) (js "\") then
    mkValidation false (Some (js "Invalid filename."))
  else mkValidation true None.

(** ** PhotoGallery.tsx: like / dislike toggles

    A JS [Set<string>] is a duplicate-free list; [has], [add] and [delete]
    are the Set methods. *)

Definition set_has (s : list jstr) (x : jstr) : bool := existsb (jeqb x) s.
Definition set_add (s : list jstr) (x : jstr) : list jstr :=
  if set_has s x then s else s ++ [x].
Definition set_delete (s : list jstr) (x : jstr) : list jstr :=
  filter (fun y => negb (jeqb y x)) s.

Record Gallery := mkGallery {
  userLikes : list jstr;
  userDislikes : list jstr;
  localPhotos : list Photo
}.

(** [likeApi.toggleLike] / [dislikeApi.toggleDislike]: the photo id and the
    user name are validated, then the request is posted; [server_ok] is
    whether the POST resolves.  The result is whether the awaited call
    resolves (as opposed to throwing). *)
Definition toggleRequest (photoId userName : jstr) (server_ok : bool) : bool :=
  validRoomId photoId && validUserName userName && server_ok.

(** [handleLike]: [likesAtRender] is the [userLikes] captured by the closure
    of the render that created the handler. *)
Definition handleLike (userName : jstr) (likesAtRender : list jstr)
    (server_ok : bool) (photoId : jstr) (g : Gallery) : Gallery :=
  if jeqb userName [] then g
  else if toggleRequest photoId userName server_ok then
    mkGallery
      (let prev := userLikes g in
       if set_has prev photoId then set_delete prev photoId else set_add prev photoId)
      (userDislikes g)
      (map (fun photo =>
              if jeqb (photo_id photo) photoId then
                let isLiked := set_has likesAtRender photoId in
                mkPhoto (photo_id photo)
                  (if isLiked then like_count photo - 1 else like_count photo + 1)
                  (dislike_count photo)
              else photo) (localPhotos g))
  else g.

(** [handleDislike] *)
Definition handleDislike (userName : jstr) (dislikesAtRender : list jstr)
    (server_ok : bool) (photoId : jstr) (g : Gallery) : Gallery :=
  if jeqb userName [] then g
  else if toggleRequest photoId userName server_ok then
    mkGallery
      (userLikes g)
      (let prev := userDislikes g in
       if set_has prev photoId then set_delete prev photoId else set_add prev photoId)
      (map (fun photo =>
              if jeqb (photo_id photo) photoId then
                let isDisliked := set_has dislikesAtRender photoId in
                mkPhoto (photo_id photo) (like_count photo)
                  (if isDisliked then dislike_count photo - 1 else dislike_count photo + 1)
              else photo) (localPhotos g))
  else g.

Inductive Kind := Like | Dislike.

(** A click on the like or dislike button of a freshly rendered gallery:
    the handler's closure sees the current state. *)
Definition click (k : Kind) (userName : jstr) (server_ok : bool) (photoId : jstr)
    (g : Gallery) : Gallery :=
  match k with
  | Like => handleLike userName (userLikes g) server_ok photoId g
  | Dislike => handleDislike userName (userDislikes g) server_ok photoId g
  end.

Definition active (k : Kind) (g : Gallery) (photoId : jstr) : bool :=
  match k with
  | Like => set_has (userLikes g) photoId
  | Dislike => set_has (userDislikes g) photoId
  end.

Definition counter (k : Kind) (p : Photo) : Z :=
  match k with Like => like_count p | Dislike => dislike_count p end.

(** ** Errors and requests

    A rejected promise carries an error object; an axios error has a
    [response] with an HTTP [status] and [data.detail], an [Error] thrown by
    the client itself has only a [message]. *)

Record HttpError := mkHttpError {
  response_status : option Z;
  response_detail : option jstr;
  err_message : jstr
}.

Inductive Res (A : Type) : Type :=
| Ok (a : A)
| Throw (e : HttpError).
Arguments Ok {A} a.
Arguments Throw {A} e.

Definition client_error (msg : jstr) : HttpError := mkHttpError None None msg.

(** Truthiness of a string: the empty string is falsy. *)
Definition js_truthy (s : jstr) : bool := match s with [] => false | _ => true end.

(** ** photoApi.uploadPhoto (src/unnamed/part_001)

    [post] is the server's answer to the multipart POST.  The first
    component of the result lists the files actually sent to the server. *)
Definition uploadPhoto {A : Type} (post : File -> Res A) (roomId : jstr) (file : File)
    (uploaderName : jstr) : list File * Res A :=
  if negb (validRoomId roomId) then ([], Throw (client_error (js "Invalid room ID format")))
  else if negb (validUserName uploaderName) then ([], Throw (client_error (js "Invalid username")))
  else
    let fileValidation := validateFile file in
    if negb (valid fileValidation) then
      ([], Throw (client_error (js_or (match verror fileValidation with
                                       | Some m => m | None => [] end) (js "Invalid file"))))
    else ([file], post file).

(** ** PhotoUpload.tsx: processFiles

    Files failing [validateInput.file] are dropped from the selection and
    reported as [`${file.name}: ${validation.error}`]. *)
Definition colon_sp : jstr := [58; 32].

Record Selection := mkSelection {
  validFiles : list File;
  validationErrors : list jstr
}.

(** The [forEach] body. *)
Definition processFiles_step (acc : Selection) (file : File) : Selection :=
  let validation := validateFile file in
  if valid validation then
    mkSelection (validFiles acc ++ [file]) (validationErrors acc)
  else
    mkSelection (validFiles acc)
      (validationErrors acc ++
         [name file ++ colon_sp ++
            match verror validation with Some m => m | None => js "undefined" end]).

Definition processFiles (files : list File) : Selection :=
  fold_left processFiles_step files (mkSelection [] []).

(** ** Batched uploads: events observable from the batch loops *)

Inductive Event :=
| EvStart (batch : list File)   (* the calls of one sub-batch are started *)
| EvSettled (n : nat)           (* Promise.allSettled resolved with n outcomes *)
| EvDelay (ms : Z).             (* await new Promise(r => setTimeout(r, ms)) *)

Definition BATCH_SIZE : nat := 5.

(** [Array.prototype.slice(i, j)] *)
Definition slice {A : Type} (l : list A) (i j : nat) : list A :=
  firstn (j - i) (skipn i l).

(** *** uploadFilesInBatches (src/frontend/src/components/PhotoUpload.tsx) *)

Definition msg_duplicate : jstr :=
  [58; 32; 51060; 48120; 32; 50629; 47196; 46300; 46108; 32; 49324; 51652; 51077; 45768; 45796].
Definition msg_bad_request : jstr := [51096; 47803; 46108; 32; 50836; 52397].
Definition msg_too_large : jstr :=
  [58; 32; 54028; 51068; 32; 53356; 44592; 44032; 32; 45320; 47924; 32; 53373; 45768; 45796;
   32; 40; 52572; 45824; 32; 49; 48; 77; 66; 41].
Definition msg_too_many : jstr :=
  [58; 32; 50836; 52397; 51060; 32; 45320; 47924; 32; 47566; 49845; 45768; 45796; 46; 32;
   51104; 49884; 32; 54980; 32; 45796; 49884; 32; 49884; 46020; 54644; 51452; 49464; 50836].
Definition msg_csrf : jstr :=
  [58; 32; 48372; 50504; 32; 53664; 53360; 32; 50724; 47448; 46; 32; 54168; 51060; 51648;
   47484; 32; 49352; 47196; 44256; 52840; 54644; 51452; 49464; 50836].
Definition msg_upload_failed : jstr := [58; 32; 50629; 47196; 46300; 32; 49892; 54056; 32; 40].
Definition msg_unknown : jstr := [50508; 32; 49688; 32; 50630; 45716; 32; 50724; 47448].

Record BatchTally := mkTally {
  completedFiles : nat;
  skippedFiles : nat;
  errors : list jstr
}.

(** The message pushed on [errors] for a rejected file (the
    [if/else if] chain on [error.response?.status]). *)
Definition error_line (file : File) (error : HttpError) : jstr :=
  match response_status error with
  | Some 409 => name file ++ msg_duplicate
  | Some 400 => name file ++ colon_sp ++
                  js_or (match response_detail error with Some d => d | None => [] end)
                        msg_bad_request
  | Some 413 => name file ++ msg_too_large
  | Some 429 => name file ++ msg_too_many
  | Some 419 => name file ++ msg_csrf
  | _ => name file ++ msg_upload_failed ++ js_or (err_message error) msg_unknown ++ [41]
  end.

Definition is_duplicate (error : HttpError) : bool :=
  match response_status error with Some 409 => true | _ => false end.

(** The [batchResults.forEach] body for one fulfilled result: a success
    counts in [completedFiles]; a rejection pushes one line on [errors],
    and a 409 also counts in [skippedFiles]. *)
Definition tally_one (t : BatchTally) (r : File * Res unit) : BatchTally :=
  let '(file, res) := r in
  match res with
  | Ok _ => mkTally (S (completedFiles t)) (skippedFiles t) (errors t)
  | Throw error =>
      mkTally (completedFiles t)
        (if is_duplicate error then S (skippedFiles t) else skippedFiles t)
        (errors t ++ [error_line file error])
  end.

Section InBatches.

(** [photoApi.uploadPhoto(roomId, file, userName)] as seen by the batch
    loop: resolves or throws. *)
Variable upload : File -> Res unit.

Definition BATCH_DELAY_1 : Z := 1000.

(** [for (let i = 0; i < files.length; i += BATCH_SIZE) batches.push(files.slice(i, i + BATCH_SIZE))],
    with [fuel] bounding the number of iterations. *)
Fixpoint split_batches (fuel : nat) (i : nat) (files : list File) : list (list File) :=
  match fuel with
  | O => []
  | S fuel' =>
      if Nat.ltb i (List.length files)
      then slice files i (i + BATCH_SIZE) :: split_batches fuel' (i + BATCH_SIZE) files
      else []
  end.

(** The sequential loop over [batches]: each sub-batch's calls are started,
    joined with [Promise.allSettled], tallied, and followed by the delay
    unless it is the last one.  Each call's [try/catch] turns a rejection
    into a fulfilled [{ success: false, ... }] result. *)
Fixpoint batch_loop1 (batches : list (list File)) (batchIndex : nat) (t : BatchTally)
  : BatchTally * list Event :=
  match batches with
  | [] => (t, [])
  | batch :: rest =>
      let batchResults := map (fun file => (file, upload file)) batch in
      let t' := fold_left tally_one batchResults t in
      let wait := if Nat.ltb batchIndex (List.length batches + batchIndex - 1)
                  then [EvDelay BATCH_DELAY_1] else [] in
      let '(t'', tr) := batch_loop1 rest (S batchIndex) t' in
      (t'', EvStart batch :: EvSettled (List.length batchResults) :: wait ++ tr)
  end.

Definition uploadFilesInBatches (files : list File) : BatchTally * list Event :=
  let batches := split_batches (List.length files) 0 files in
  batch_loop1 batches 0 (mkTally 0 0 []).

End InBatches.

(** The counts [handleUpload] reports after [uploadFilesInBatches]:
    uploaded ([completedFiles]), skipped duplicates ([skippedFiles]) and
    failures ([errors.length - skippedFiles]). *)
Definition upload_summary (t : BatchTally) : nat * nat * nat :=
  (completedFiles t, skippedFiles t, (List.length (errors t) - skippedFiles t)%nat).

(** ** Upload sessions and logs (src/unnamed/part_004) *)

Inductive LogStatus := Pending | Uploading | Success | LogFailed | Retrying.

Record UploadLog := mkLog {
  log_id : nat;
  log_session : nat;
  log_filename : jstr;
  log_status : LogStatus;
  log_photo_id : option jstr;
  log_error_message : option jstr;
  retry_count : nat
}.

Inductive SessionStatus := InProgress | Completed | PartiallyFailed | SessionFailed.

Record UploadSession := mkSession {
  session_id : nat;
  total_files : Z;
  completed_files : Z;
  failed_files : Z;
  status : SessionStatus
}.

Section Logged.

(** The photo store behind the Ingestion Pipeline and the pipeline itself
    (server code, not part of this repository's sources). *)
Variable DB : Type.
Variable ingest : DB -> File -> DB * Res jstr.

Record Server := mkServer {
  sessions : list UploadSession;
  logs : list UploadLog;
  next_id : nat;
  db : DB
}.

Definition update_log (f : UploadLog -> UploadLog) (logId : nat) (l : list UploadLog) :=
  map (fun lg => if Nat.eqb (log_id lg) logId then f lg else lg) l.

Definition find_log (st : Server) (logId : nat) : option UploadLog :=
  find (fun lg => Nat.eqb (log_id lg) logId) (logs st).

Definition find_session (st : Server) (sid : nat) : option UploadSession :=
  find (fun s => Nat.eqb (session_id s) sid) (sessions st).

(** Modelled from the spec: [uploadSessionApi.createSession] (missing from
    the sources): a new session with status InProgress and zero counters. *)
Definition createSession (st : Server) (total : nat) : Server * UploadSession :=
  let s := mkSession (next_id st) (Z.of_nat total) 0 0 InProgress in
  (mkServer (sessions st ++ [s]) (logs st) (S (next_id st)) (db st), s).

(** Modelled from the spec: [uploadLogApi.createLog] (missing from the
    sources): a new log with status Pending. *)
Definition createLog (st : Server) (sid : nat) (file : File) : Server * UploadLog :=
  let lg := mkLog (next_id st) sid (name file) Pending None None 0 in
  (mkServer (sessions st) (logs st ++ [lg]) (S (next_id st)) (db st), lg).

(** The human-readable failure description the server records. *)
Definition failure_text (e : HttpError) : jstr :=
  js_or (match response_detail e with Some d => d | None => [] end) (err_message e).

(** Modelled from the spec: [photoApiEnhanced.uploadPhotoWithLogging]
    (missing from the sources): the file goes through the Ingestion Pipeline
    and its log becomes Success with the photo id, or Failed with an error
    message derived from the failure. *)
Definition uploadPhotoWithLogging (st : Server) (file : File) (logId : nat)
  : Server * Res jstr :=
  let '(d', r) := ingest (db st) file in
  let mark := match r with
              | Ok pid => fun lg => mkLog (log_id lg) (log_session lg) (log_filename lg)
                                      Success (Some pid) None (retry_count lg)
              | Throw e => fun lg => mkLog (log_id lg) (log_session lg) (log_filename lg)
                                       LogFailed None (Some (failure_text e)) (retry_count lg)
              end in
  (mkServer (sessions st) (update_log mark logId (logs st)) (next_id st) d', r).

(** Modelled from the spec: [uploadSessionApi.updateSession] (missing from
    the sources): stores the counters and the status sent by the client. *)
Definition status_of_string (s : jstr) : SessionStatus :=
  if jeqb s (js "completed") then Completed
  else if jeqb s (js "failed") then SessionFailed
  else if jeqb s (js "partially_failed") then PartiallyFailed
  else InProgress.

Definition updateSession (st : Server) (sid : nat) (completed failed : Z) (st_name : jstr)
  : Server :=
  mkServer
    (map (fun s => if Nat.eqb (session_id s) sid
                   then mkSession sid (total_files s) completed failed (status_of_string st_name)
                   else s) (sessions st))
    (logs st) (next_id st) (db st).

(** The per-file result of the [batch.map(async ...)] body. *)
Record FileOutcome := mkOutcome {
  success : bool;
  o_file : File;
  o_log : UploadLog;
  o_photo : option jstr;
  o_error : option jstr
}.

(** [error.response?.data?.detail || error.message || '알 수 없는 오류'] *)
Definition errorMessage (e : HttpError) : jstr :=
  js_or (match response_detail e with Some d => d | None => [] end)
        (js_or (err_message e) msg_unknown).

(** Accumulated state of the batch loop: [completedCount], [failedCount],
    [failedLogs]. *)
Record LoopAcc := mkAcc {
  completedCount : nat;
  failedCount : nat;
  failedLogs : list UploadLog
}.

(** One file of a sub-batch: the [try/catch] around
    [uploadPhotoWithLogging]; a rejection pushes the log on [failedLogs]
    and becomes a fulfilled [{ success: false }] result. *)
Definition upload_one (st : Server) (fl : list UploadLog) (pair : File * UploadLog)
  : Server * list UploadLog * FileOutcome :=
  let '(file, lg) := pair in
  let '(st', r) := uploadPhotoWithLogging st file (log_id lg) in
  match r with
  | Ok photo => (st', fl, mkOutcome true file lg (Some photo) None)
  | Throw error => (st', fl ++ [lg], mkOutcome false file lg None (Some (errorMessage error)))
  end.

(** The calls of one sub-batch, started in order and joined. *)
Fixpoint run_batch (st : Server) (fl : list UploadLog) (batch : list (File * UploadLog))
  : Server * list UploadLog * list FileOutcome :=
  match batch with
  | [] => (st, fl, [])
  | p :: rest =>
      let '(st1, fl1, o) := upload_one st fl p in
      let '(st2, fl2, os) := run_batch st1 fl1 rest in
      (st2, fl2, o :: os)
  end.

(** [batchResults.forEach]: every result is fulfilled. *)
Definition tally (c f : nat) (results : list FileOutcome) : nat * nat :=
  fold_left (fun '(c, f) r => if success r then (S c, f) else (c, S f)) results (c, f).

Definition BATCH_DELAY : Z := 4000.

(** [for (let i = 0; i < fileLogPairs.length; i += BATCH_SIZE) { ... }], with
    [fuel] bounding the number of iterations; the trace records the
    sub-batches started, their join, and the delays. *)
Fixpoint batch_loop (fuel : nat) (i : nat) (pairs : list (File * UploadLog))
    (st : Server) (acc : LoopAcc) : Server * LoopAcc * list FileOutcome * list Event :=
  match fuel with
  | O => (st, acc, [], [])
  | S fuel' =>
      if Nat.ltb i (List.length pairs) then
        let batch := slice pairs i (i + BATCH_SIZE) in
        let '(st1, fl1, batchResults) := run_batch st (failedLogs acc) batch in
        let '(c1, f1) := tally (completedCount acc) (failedCount acc) batchResults in
        let wait := if Nat.ltb (i + BATCH_SIZE) (List.length pairs)
                    then [EvDelay BATCH_DELAY] else [] in
        let '(st2, acc2, os, tr) := batch_loop fuel' (i + BATCH_SIZE) pairs st1 (mkAcc c1 f1 fl1) in
        (st2, acc2, batchResults ++ os,
         EvStart (map fst batch) :: EvSettled (List.length batchResults) :: wait ++ tr)
      else (st, acc, [], [])
  end.

(** Step 2 of [uploadFilesWithLogging]: one log per file, in order. *)
Fixpoint create_logs (st : Server) (sid : nat) (files : list File) : Server * list UploadLog :=
  match files with
  | [] => (st, [])
  | file :: rest =>
      let '(st1, lg) := createLog st sid file in
      let '(st2, lgs) := create_logs st1 sid rest in
      (st2, lg :: lgs)
  end.

Record UploadResult := mkResult {
  r_session_id : nat;
  r_total_files : nat;
  successful_uploads : nat;
  failed_uploads : nat;
  r_failed_files : list UploadLog
}.

Definition finalStatus (completedCount failedCount : nat) : jstr :=
  if Nat.eqb failedCount 0 then js "completed"
  else if Nat.eqb completedCount 0 then js "failed"
  else js "partially_failed".

Record LoggedRun := mkRun {
  run_server : Server;
  run_result : UploadResult;
  run_outcomes : list FileOutcome;
  run_trace : list Event
}.

(** [uploadFilesWithLogging(files, userName)] *)
Definition uploadFilesWithLogging (st : Server) (files : list File) : LoggedRun :=
  let '(st1, session) := createSession st (List.length files) in
  let '(st2, lgs) := create_logs st1 (session_id session) files in
  let fileLogPairs := combine files lgs in
  let '(st3, acc, outcomes, tr) :=
    batch_loop (List.length fileLogPairs) 0 fileLogPairs st2 (mkAcc 0 0 []) in
  let st4 := updateSession st3 (session_id session)
               (Z.of_nat (completedCount acc)) (Z.of_nat (failedCount acc))
               (finalStatus (completedCount acc) (failedCount acc)) in
  mkRun st4
    (mkResult (session_id session) (List.length files) (completedCount acc)
              (failedCount acc) (failedLogs acc))
    outcomes tr.

End Logged.

(** *** retryFailedUploads (src/unnamed/part_004) *)

Section Retry.

Variable DB : Type.

(** Modelled from the spec: [uploadLogApi.retryFailedUploads] (missing
    from the sources): the named Failed logs go to Retrying, their error is
    cleared and their retry count incremented. *)
Definition retryLogs (st : Server DB) (log_ids : list nat) : Server DB :=
  mkServer DB (sessions DB st)
    (map (fun lg => if existsb (Nat.eqb (log_id lg)) log_ids
                    then match log_status lg with
                         | LogFailed => mkLog (log_id lg) (log_session lg) (log_filename lg)
                                          Retrying None None (S (retry_count lg))
                         | _ => lg
                         end
                    else lg) (logs DB st))
    (next_id DB st) (db DB st).

(** Modelled from the spec: [uploadLogApi.getSessionLogs] (missing from
    the sources). *)
Definition getSessionLogs (st : Server DB) (sid : nat) : list UploadLog :=
  filter (fun lg => Nat.eqb (log_session lg) sid) (logs DB st).

(** The [TypeError] thrown by [uploadSession!.id] when [uploadSession] is
    null (the non-null assertion does not check at run time). *)
Definition null_id_error : HttpError :=
  client_error (js "Cannot read properties of null (reading 'id')").

(** The alerts of [retryFailedUploads]:
    [AlertNoUserName] is the missing-name alert,
    [AlertRetryDone ok fail] the final count alert (successes, failures),
    [AlertRetryFailed m] the alert of the [catch] block, with [error.message]. *)
Inductive RetryAlert :=
| AlertNoUserName
| AlertRetryDone (ok fail : nat)
| AlertRetryFailed (message : jstr).

(** What a call leaves behind: the server, the files sent through the
    Ingestion Pipeline, the alert shown, the [uploadResult] state and whether
    [onUploadSuccess()] was called.  [uploading] is false at the end of every
    path ([finally]), so it is left out. *)
Record RetryRun := mkRetry {
  retry_server : Server DB;
  retry_submitted : list File;
  retry_alert : option RetryAlert;
  retry_uploadResult : option UploadResult;
  retry_refreshed : bool
}.

Definition is_pending (lg : UploadLog) : bool :=
  match log_status lg with Pending => true | _ => false end.

(** [retryFailedUploads()]: [uploadResult] and [uploadSession] are the
    component state it reads and [userName] is [localStorage.getItem('userName')].
    [retry_rejects] and [logs_rejects] say whether the request of
    [uploadLogApi.retryFailedUploads] and of [uploadLogApi.getSessionLogs]
    is rejected (with the error the [catch] block receives) or answered; a
    rejected retry request leaves the server as it was. *)
Definition retryFailedUploads (retry_rejects logs_rejects : option HttpError)
    (st : Server DB) (uploadResult : option UploadResult)
    (uploadSession : option UploadSession) (userName : option jstr) : RetryRun :=
  match uploadResult with
  | None => mkRetry st [] None uploadResult false
  | Some res =>
      match r_failed_files res with
      | [] => mkRetry st [] None uploadResult false
      | _ =>
          let failedLogIds := map log_id (r_failed_files res) in
          match retry_rejects with
          | Some error =>
              mkRetry st [] (Some (AlertRetryFailed (err_message error))) uploadResult false
          | None =>
              let st1 := retryLogs st failedLogIds in
              (* if (!userName) { alert(...); return; } *)
              if negb (match userName with Some u => js_truthy u | None => false end)
              then mkRetry st1 [] (Some AlertNoUserName) uploadResult false
              else
                (* setUploadResult(null) *)
                match uploadSession with
                | None =>
                    mkRetry st1 [] (Some (AlertRetryFailed (err_message null_id_error))) None false
                | Some session =>
                    match logs_rejects with
                    | Some error =>
                        mkRetry st1 [] (Some (AlertRetryFailed (err_message error))) None false
                    | None =>
                        let updatedLogs := getSessionLogs st1 (session_id session) in
                        let pendingLogs := filter is_pending updatedLogs in
                        (* for (const log of pendingLogs) { ...; retrySuccessCount++; };
                           the body cannot throw, so retryFailCount stays 0 *)
                        let '(retrySuccessCount, retryFailCount) :=
                          fold_left (fun '(ok, fail) _ => (S ok, fail)) pendingLogs (0%nat, 0%nat) in
                        mkRetry st1 [] (Some (AlertRetryDone retrySuccessCount retryFailCount))
                          None true
                    end
                end
          end
      end
  end.

End Retry.

(** ** RoomPage (src/unnamed/part_002): the RoomInfo controls *)

Inductive Control := CopyRoomId | CopyRoomLink | DeleteRoom.

(** ['이성일'] *)
Definition privilegedName : jstr := [51060; 49457; 51068].

(** The buttons rendered by [RoomInfo]; [storedUserName] is
    [localStorage.getItem('userName')], and the delete button (wired to
    [handleDeleteRoom], which sends [DELETE /rooms/{roomId}] after a
    confirmation) is rendered when [(getItem('userName') || '') === '이성일']. *)
Definition roomInfoControls (storedUserName : option jstr) : list Control :=
  let currentUserName := js_or (match storedUserName with Some n => n | None => [] end) [] in
  [CopyRoomId; CopyRoomLink] ++ (if jeqb currentUserName privilegedName then [DeleteRoom] else []).

(** ** Submit-side validation predicates *)

Definition type_allowed (file : File) : bool := existsb (jeqb (type file)) allowedTypes.

Definition suspicious_name (file : File) : bool :=
  includes (name file) (js "..") || includes (name file) (js "/") || includes (name file) (js "\").

Definition sampleRoomId : jstr := js "123e4567-e89b-12d3-a456-426614174000".
Definition sampleUser : jstr := js "alice".

(** ** Batch partition and schedule *)

(** The schedule the spec describes for a list of sub-batches: each
    sub-batch is started and joined, and consecutive sub-batches are
    separated by the delay [d]. *)
Fixpoint spec_schedule (d : Z) (bs : list (list File)) : list Event :=
  match bs with
  | [] => []
  | b :: rest =>
      EvStart b :: EvSettled (List.length b) ::
      match rest with [] => [] | _ => EvDelay d :: spec_schedule d rest end
  end.

(** Sub-batches of exactly 5, the last one non-empty and of at most 5. *)
Fixpoint chunked_by_5 {A : Type} (bs : list (list A)) : Prop :=
  match bs with
  | [] => True
  | [b] => (0 < List.length b <= 5)%nat
  | b :: rest => List.length b = 5%nat /\ chunked_by_5 rest
  end.

(** ** Per-file outcomes *)

(** What the caller can observe of one file's outcome. *)
Definition outcome_view (o : FileOutcome) : File * bool * option jstr * option jstr :=
  (o_file o, success o, o_photo o, o_error o).

Definition view_of (file : File) (r : Res jstr) : File * bool * option jstr * option jstr :=
  match r with
  | Ok p => (file, true, Some p, None)
  | Throw e => (file, false, None, Some (errorMessage e))
  end.

(** The log of an outcome records it: Success with the photo id, or Failed
    with the message derived from the same failure as the client's. *)
Definition outcome_recorded {DB : Type} (st : Server DB) (o : FileOutcome) : Prop :=
  exists lg, find_log DB st (log_id (o_log o)) = Some lg
  /\ (success o = true -> log_status lg = Success /\ log_photo_id lg = o_photo o)
  /\ (success o = false -> exists e, o_error o = Some (errorMessage e)
                           /\ log_status lg = LogFailed
                           /\ log_error_message lg = Some (failure_text e)).

Section Observations.

Context {DB : Type} (ingest : DB -> File -> DB * Res jstr).

(** Each file ingested on its own, one after the other, from store [d]. *)
Fixpoint seq_outcomes (d : DB) (files : list File) : list (File * bool * option jstr * option jstr) :=
  match files with
  | [] => []
  | f :: rest => let '(d', r) := ingest d f in view_of f r :: seq_outcomes d' rest
  end.

Definition db_after (d : DB) (files : list File) : DB :=
  fold_left (fun d f => fst (ingest d f)) files d.

End Observations.

(** The log update made for one file. *)
Definition mark_of (r : Res jstr) : UploadLog -> UploadLog :=
  match r with
  | Ok pid => fun lg => mkLog (log_id lg) (log_session lg) (log_filename lg)
                          Success (Some pid) None (retry_count lg)
  | Throw e => fun lg => mkLog (log_id lg) (log_session lg) (log_filename lg)
                           LogFailed None (Some (failure_text e)) (retry_count lg)
  end.

Definition sampleFailedLog : UploadLog :=
  mkLog 0 0 (js "a.jpg") LogFailed None (Some (js "boom")) 0.

(** The session of that upload: its one file failed. *)
Definition sampleFailedSession : UploadSession := mkSession 0 1 0 1 SessionFailed.

(** ** sanitizeInput (src/unnamed/part_001) *)

(** The code units JS counts as white space for [String.prototype.trim]
    and for [\s] in a regular expression: WhiteSpace (TAB, VT, FF, SP,
    NBSP, ZWNBSP and the Zs category) and LineTerminator (LF, CR, LS, PS). *)
Definition is_js_space (c : Z) : bool :=
  existsb (Z.eqb c)
    [9; 10; 11; 12; 13; 32; 160; 5760; 8192; 8193; 8194; 8195; 8196; 8197; 8198;
     8199; 8200; 8201; 8202; 8232; 8233; 8239; 8287; 12288; 65279].

Fixpoint drop_spaces (s : jstr) : jstr :=
  match s with
  | c :: s' => if is_js_space c then drop_spaces s' else s
  | [] => []
  end.

(** [String.prototype.trim] *)
Definition trim (s : jstr) : jstr := rev (drop_spaces (rev (drop_spaces s))).

(** [s.replace(/c/g, r)] for a pattern matching the single code unit [c]. *)
Definition replace_all (c : Z) (r : jstr) (s : jstr) : jstr :=
  flat_map (fun d => if Z.eqb d c then r else [d]) s.

(** [input.replace(/</g, '&lt;').replace(/>/g, '&gt;')], then the double
    quote (34) to [&quot;], the single quote (39) to [&#x27;] and [/] (47)
    to [&#x2F;], each globally, then [.trim()]. *)
Definition sanitizeInput (input : jstr) : jstr :=
  trim (replace_all 47 (js "&#x2F;")
          (replace_all 39 (js "&#x27;")
             (replace_all 34 (js "&quot;")
                (replace_all 62 (js "&gt;")
                   (replace_all 60 (js "&lt;") input))))).

(** A string that does not start with white space. *)
Definition no_lead_space (s : jstr) : Prop :=
  match s with c :: _ => is_js_space c = false | [] => True end.

(** The characters [sanitizeInput] escapes: [<], [>], the double quote,
    the single quote and [/]. *)
Definition markup_chars : list Z := [60; 62; 34; 39; 47].

(** ** API calls that send a photo id or a user name (src/unnamed/part_001)

    A call either throws its validation error before any request, or
    issues one request: its method, path, and query parameters or JSON
    body. *)

Inductive ApiCall :=
| ApiGet (path : jstr) (params : list (jstr * jstr))
| ApiPost (path : jstr) (body : list (jstr * jstr)).

(** [likeApi.toggleLike(photoId, { user_name })] *)
Definition toggleLike (photoId userName : jstr) : Res ApiCall :=
  if negb (validRoomId photoId) then Throw (client_error (js "Invalid photo ID format"))
  else if negb (validUserName userName) then Throw (client_error (js "Invalid username"))
  else Ok (ApiPost (js "/likes/" ++ photoId) [(js "user_name", sanitizeInput userName)]).

(** [dislikeApi.toggleDislike(photoId, { user_name })] *)
Definition toggleDislike (photoId userName : jstr) : Res ApiCall :=
  if negb (validRoomId photoId) then Throw (client_error (js "Invalid photo ID format"))
  else if negb (validUserName userName) then Throw (client_error (js "Invalid username"))
  else Ok (ApiPost (js "/dislikes/" ++ photoId) [(js "user_name", sanitizeInput userName)]).

(** [photoApi.getRoomPhotos(roomId)] *)
Definition getRoomPhotos (roomId : jstr) : Res ApiCall :=
  if negb (validRoomId roomId) then Throw (client_error (js "Invalid room ID format"))
  else Ok (ApiGet (js "/photos/" ++ roomId) []).

(** [photoApi.getRoomPhotosWithUserStatus(roomId, userName)] *)
Definition getRoomPhotosWithUserStatus (roomId userName : jstr) : Res ApiCall :=
  if negb (validRoomId roomId) then Throw (client_error (js "Invalid room ID format"))
  else if negb (validUserName userName) then Throw (client_error (js "Invalid username"))
  else Ok (ApiGet (js "/photos/" ++ roomId ++ js "/with-user-status")
                  [(js "user_name", sanitizeInput userName)]).

(** The photo request of [refreshRoomData], [handleUploadSuccess] and
    [handleLogin] (src/unnamed/part_002):
    [userName && userName.trim().length >= 2
       ? photoApi.getRoomPhotosWithUserStatus(roomId, userName)
       : photoApi.getRoomPhotos(roomId)].  It is one of the three calls
    joined by [Promise.all], so a throw here rejects the whole load. *)
Definition photosRequest (roomId : jstr) (userName : option jstr) : Res ApiCall :=
  match userName with
  | Some u =>
      if js_truthy u && (2 <=? Z.of_nat (List.length (trim u)))
      then getRoomPhotosWithUserStatus roomId u
      else getRoomPhotos roomId
  | None => getRoomPhotos roomId
  end.

(** ** RoomPage's name field (src/unnamed/part_002)

    The parsed [roomUsers] object of localStorage is an association list
    (a JS object: assigning an existing key replaces its value in place,
    a new key is appended). *)

Fixpoint obj_get (o : list (jstr * jstr)) (k : jstr) : option jstr :=
  match o with
  | [] => None
  | (k', v) :: o' => if jeqb k k' then Some v else obj_get o' k
  end.

Definition obj_set (o : list (jstr * jstr)) (k v : jstr) : list (jstr * jstr) :=
  if existsb (fun kv => jeqb k (fst kv)) o
  then map (fun kv => if jeqb k (fst kv) then (fst kv, v) else kv) o
  else o ++ [(k, v)].

Record Storage := mkStorage {
  roomUsers : list (jstr * jstr);       (* JSON.parse(localStorage.getItem('roomUsers') || '{}') *)
  localUserName : option jstr;          (* localStorage.getItem('userName') *)
  sessionUserName : option jstr         (* sessionStorage.getItem('userName') *)
}.

(** The input's [defaultValue]:
    [roomUserData[roomId] || localStorage.getItem('userName') || '']. *)
Definition nameDefaultValue (roomId : jstr) (st : Storage) : jstr :=
  if negb (js_truthy roomId) then []
  else js_or (match obj_get (roomUsers st) roomId with Some v => v | None => [] end)
             (js_or (match localUserName st with Some n => n | None => [] end) []).

(** The input's [onBlur] with the field's current [value]. *)
Definition nameOnBlur (roomId value : jstr) (st : Storage) : Storage :=
  let name := trim value in
  if js_truthy name && js_truthy roomId
  then mkStorage (obj_set (roomUsers st) roomId name) (Some name) (Some name)
  else st.

(** ** PhotoGallery.tsx: selection, batch download, refresh *)

(** [handlePhotoSelect(photoId)] on the [selectedPhotos] set. *)
Definition handlePhotoSelect (photoId : jstr) (prev : list jstr) : list jstr :=
  if set_has prev photoId then set_delete prev photoId else set_add prev photoId.

Inductive BatchDownload :=
| NothingSelected                        (* alert('다운로드할 사진을 선택해주세요.') *)
| IOSTabs (photos : list Photo)          (* one new tab per photo, i * 1000 ms apart *)
| Downloads (photos : list Photo).       (* handleDownload per photo, 500 ms apart *)

(** [handleBatchDownload]: the photos acted on and the selection after. *)
Definition handleBatchDownload (ios : bool) (selectedPhotos : list jstr)
    (localPhotos : list Photo) : BatchDownload * list jstr :=
  if Nat.eqb (List.length selectedPhotos) 0 then (NothingSelected, selectedPhotos)
  else
    let selectedPhotoObjects :=
      filter (fun photo => set_has selectedPhotos (photo_id photo)) (visiblePhotos localPhotos) in
    ((if ios then IOSTabs selectedPhotoObjects else Downloads selectedPhotoObjects), []).

(** The default order of [Array.prototype.sort] on strings: by UTF-16 code
    units. *)
Fixpoint jleb (a b : jstr) : bool :=
  match a, b with
  | [], _ => true
  | _ :: _, [] => false
  | x :: a', y :: b' => (x <? y) || ((x =? y) && jleb a' b')
  end.

Fixpoint insert_sorted (x : jstr) (l : list jstr) : list jstr :=
  match l with
  | [] => [x]
  | y :: l' => if jleb x y then x :: l else y :: insert_sorted x l'
  end.

(** [Array.prototype.sort()] on strings.  The order is total, so the
    result is the unique sorted permutation; insertion sort computes it. *)
Definition js_sort (l : list jstr) : list jstr := fold_right insert_sorted [] l.

(** [Array.prototype.join(sep)] *)
Fixpoint join (sep : jstr) (l : list jstr) : jstr :=
  match l with
  | [] => []
  | [x] => x
  | x :: l' => x ++ sep ++ join sep l'
  end.

(** [photos.map(p => p.id).sort().join(',')] *)
Definition photoIdsKey (photos : list Photo) : jstr := join [44] (js_sort (map photo_id photos)).

(** The [localPhotos] the [useEffect] on [photos] leaves: replaced by the
    new [photos] when the sorted id lists differ, kept otherwise. *)
Definition syncLocalPhotos (photos localPhotos : list Photo) : list Photo :=
  if negb (jeqb (photoIdsKey photos) (photoIdsKey localPhotos)) then photos else localPhotos.

(** ** downloadUtils.ts: device detection *)

(** [/iPad|iPhone|iPod/.test(navigator.userAgent)] *)
Definition isIOS (userAgent : jstr) : bool :=
  includes userAgent (js "iPad") || includes userAgent (js "iPhone") || includes userAgent (js "iPod").

(** ASCII case folding.  Under the [i] flag (without [u]) a code unit
    matches a pattern letter when both canonicalise to the same upper-case
    unit, and a non-ASCII unit never canonicalises to an ASCII one; the
    patterns below are ASCII, so folding ASCII letters is the same test. *)
Definition ascii_lower (c : Z) : Z := if (65 <=? c) && (c <=? 90) then c + 32 else c.

(** [/Android|webOS|iPhone|iPad|iPod|BlackBerry|IEMobile|Opera Mini/i.test(navigator.userAgent)] *)
Definition isMobile (userAgent : jstr) : bool :=
  existsb (fun p => includes (map ascii_lower userAgent) (map ascii_lower p))
    [js "Android"; js "webOS"; js "iPhone"; js "iPad"; js "iPod"; js "BlackBerry";
     js "IEMobile"; js "Opera Mini"].

(** ** PhotoUpload.tsx: processFiles' selection, progress and handleUpload *)

(** The selection [processFiles] leaves: [setSelectedFiles(dt.files)] runs
    only [if (validFiles.length > 0)]. *)
Definition processFiles_selected (prev : option (list File)) (files : list File)
  : option (list File) :=
  match validFiles (processFiles files) with
  | [] => prev
  | vs => Some vs
  end.

(** The [forEach((file, i) => { if (i !== index) dt.items.add(file); })]
    of [removeFile], from position [i]. *)
Fixpoint keep_except (index i : nat) (files : list File) : list File :=
  match files with
  | [] => []
  | file :: rest =>
      if negb (Nat.eqb i index) then file :: keep_except index (S i) rest
      else keep_except index (S i) rest
  end.

(** [removeFile(index)] on [selectedFiles]. *)
Definition removeFile (index : nat) (selectedFiles : option (list File)) : option (list File) :=
  match selectedFiles with
  | None => None
  | Some files => Some (keep_except index 0 files)
  end.

(** [completedFiles + skippedFiles + errors.length], the numerator of
    [setUploadProgress((processedFiles / totalFiles) * 100)]. *)
Definition processedFiles (t : BatchTally) : nat :=
  (completedFiles t + skippedFiles t + List.length (errors t))%nat.

(** The lines [handleUpload] appends to [message]. *)
Inductive UploadLine :=
| LineUploaded (n : nat)   (* `${completedFiles}개의 사진이 성공적으로 업로드되었습니다! 📸` *)
| LineSkipped (n : nat)    (* `\n${skippedFiles}개의 중복 사진은 건너뛰었습니다. 🔄` *)
| LineFailed (n : nat).    (* `\n${errors.length - skippedFiles}개의 사진 업로드에 실패했습니다. ❌` *)

Definition upload_lines (t : BatchTally) : list UploadLine :=
  (if Nat.ltb 0 (completedFiles t) then [LineUploaded (completedFiles t)] else [])
  ++ (if Nat.ltb 0 (skippedFiles t) then [LineSkipped (skippedFiles t)] else [])
  ++ (if Nat.ltb (skippedFiles t) (List.length (errors t))
      then [LineFailed (List.length (errors t) - skippedFiles t)] else []).

Inductive UploadAlert :=
| AlertEnterName                   (* '이름을 입력해주세요.' *)
| AlertInvalidName                 (* '유효하지 않은 사용자 이름입니다. ...' *)
| AlertInvalidRoom                 (* '유효하지 않은 방 ID입니다.' *)
| AlertMessage (lines : list UploadLine)
| AlertNoNewPhotos.                (* '업로드할 새로운 사진이 없습니다.' *)

(** [handleUpload] of src/frontend/src/components/PhotoUpload.tsx: [None]
    when it returns without an alert.  [post] is the server's answer to
    [photoApi.uploadPhoto]'s request; every file goes through
    [uploadFilesInBatches], whose calls catch their own rejections. *)
Definition handleUpload (post : File -> Res unit) (roomId : jstr)
    (storedUserName : option jstr) (selectedFiles : option (list File)) : option UploadAlert :=
  match selectedFiles with
  | None | Some [] => None
  | Some files =>
      match storedUserName with
      | None | Some [] => Some AlertEnterName
      | Some userName =>
          if negb (validUserName userName) then Some AlertInvalidName
          else if negb (validRoomId roomId) then Some AlertInvalidRoom
          else
            let t := fst (uploadFilesInBatches
                            (fun file => snd (uploadPhoto post roomId file userName)) files) in
            Some (match upload_lines t with
                  | [] => AlertNoNewPhotos
                  | message => AlertMessage message
                  end)
      end
  end.

(** ** Sample data

    A content-addressed store that rejects a second file of the same name
    as a duplicate (409) and leaves its state unchanged on rejection. *)

Definition sampleIngest (d : list jstr) (f : File) : list jstr * Res jstr :=
  if existsb (jeqb (name f)) d
  then (d, Throw (mkHttpError (Some 409) None (js "duplicate")))
  else (name f :: d, Ok (name f)).

Definition sampleFile (n : string) : File := mkFile (js n) 1024 (js "image/jpeg").

Definition sampleServer : Server (list jstr) := mkServer (list jstr) [] [] 0 [].

Definition sevenFiles : list File :=
  map sampleFile ["1.jpg"; "2.jpg"; "3.jpg"; "4.jpg"; "5.jpg"; "6.jpg"; "7.jpg"]%string.

Definition dupFiles : list File := map sampleFile ["a.jpg"; "a.jpg"; "b.jpg"]%string.

(** * Properties *)

Lemma jeqb_eq (a b : jstr) : jeqb a b = true <-> a = b.
Proof.
  revert b; induction a as [|x a IH]; intros [|y b]; simpl; try (split; congruence).
  rewrite andb_true_iff, Z.eqb_eq, IH. split; [intros [-> ->]; reflexivity|].
  intros H; injection H; auto.
Qed.

Lemma jeqb_refl (a : jstr) : jeqb a a = true.
Proof. apply jeqb_eq; reflexivity. Qed.

(** ** Visibility *)

(** C1: a photo is in the visible set computed by the gallery iff it is in
    the gallery's photo list and its dislike count is 0; so a photo with a
    positive dislike count is hidden, and a photo whose count is back to 0
    is shown again (visibility is recomputed from the current list, with
    no re-ingestion).  Concretely, a photo disliked once by this user that
    the user un-dislikes becomes visible again. *)
Theorem visiblePhotos_iff_no_dislike (g : Gallery) (userName pid : jstr) (p : Photo) :
  (forall q, In q (visiblePhotos (localPhotos g)) <-> In q (localPhotos g) /\ dislike_count q = 0)
  /\ (In p (localPhotos g) -> photo_id p = pid -> set_has (userDislikes g) pid = true ->
      dislike_count p = 1 -> validRoomId pid = true -> validUserName userName = true ->
      In (mkPhoto pid (like_count p) 0)
         (visiblePhotos (localPhotos (click Dislike userName true pid g)))).
Proof.
  split.
  - intros q. unfold visiblePhotos. rewrite filter_In, Z.eqb_eq. reflexivity.
  - intros Hin Hid Hhas H1 Hroom Huser.
    unfold visiblePhotos. apply filter_In. split; [|reflexivity].
    simpl. unfold handleDislike.
    assert (Hne : jeqb userName [] = false).
    { destruct userName; [discriminate Huser|reflexivity]. }
    rewrite Hne. unfold toggleRequest. rewrite Hroom, Huser. simpl.
    apply in_map_iff. exists p. split; [|exact Hin].
    subst pid. rewrite jeqb_refl, Hhas, H1. reflexivity.
Qed.

(** ** Reaction toggles *)

Lemma set_has_delete (s : list jstr) (x : jstr) : set_has (set_delete s x) x = false.
Proof.
  unfold set_has, set_delete. apply not_true_is_false. intros H.
  apply existsb_exists in H as [y [Hy Heq]].
  apply filter_In in Hy as [_ Hne]. apply jeqb_eq in Heq. subst y.
  rewrite jeqb_refl in Hne. discriminate.
Qed.

Lemma set_has_add (s : list jstr) (x : jstr) : set_has (set_add s x) x = true.
Proof.
  unfold set_add. destruct (set_has s x) eqn:E; [exact E|].
  unfold set_has. apply existsb_exists. exists x. split; [|apply jeqb_refl].
  apply in_or_app. right. left. reflexivity.
Qed.

Lemma toggle_flip (s : list jstr) (x : jstr) :
  set_has (if set_has s x then set_delete s x else set_add s x) x = negb (set_has s x).
Proof.
  destruct (set_has s x); simpl; [apply set_has_delete|apply set_has_add].
Qed.

Lemma map_id_ext {A : Type} (f : A -> A) (l : list A) :
  (forall a, f a = a) -> map f l = l.
Proof. intros H; induction l; simpl; [reflexivity|rewrite H, IHl; reflexivity]. Qed.

(** C6: toggling the same reaction kind on the same photo twice in a row
    (each click from a freshly rendered gallery, both requests answered)
    restores every photo's counters and the user's active flag for that
    kind, from any starting state. *)
Theorem click_twice_restores (k : Kind) (userName pid : jstr) (g : Gallery) :
  let g2 := click k userName true pid (click k userName true pid g) in
  localPhotos g2 = localPhotos g /\ active k g2 pid = active k g pid.
Proof.
  cbv zeta. destruct k; cbn [click]; unfold handleLike, handleDislike;
    destruct (jeqb userName []); try (split; reflexivity);
    destruct (toggleRequest pid userName true); try (split; reflexivity);
    cbn [userLikes userDislikes localPhotos active]; split;
    try (rewrite !toggle_flip; apply negb_involutive);
    rewrite map_map; apply map_id_ext; intros [i lc dc]; cbn;
    destruct (jeqb i pid) eqn:Hi; cbn; rewrite ?Hi; try reflexivity;
    rewrite toggle_flip.
  - destruct (set_has (userLikes g) pid); cbn; f_equal; lia.
  - destruct (set_has (userDislikes g) pid); cbn; f_equal; lia.
Qed.

(** ** Submit-side validation *)

(** C7 (as stated, refuted): a file with an allowed content type, a size
    within 10 MiB, a valid uploader name and a valid room id is still
    rejected by [photoApi.uploadPhoto] when its name contains [..]. *)
Lemma uploadPhoto_rejects_valid_typed_file :
  let file := mkFile (js "a..b.jpg") 2048 (js "image/jpeg") in
  type_allowed file = true /\ size file <= maxSize /\
  validUserName sampleUser = true /\ validRoomId sampleRoomId = true /\
  uploadPhoto (fun _ => Ok tt) sampleRoomId file sampleUser
  = ([], Throw (client_error (js "Invalid filename."))).
Proof. vm_compute. repeat split; congruence. Qed.

Lemma validateFile_valid (file : File) :
  valid (validateFile file) =
  type_allowed file && (size file <=? maxSize) && negb (suspicious_name file).
Proof.
  unfold validateFile, type_allowed, suspicious_name.
  destruct (existsb (jeqb (type file)) allowedTypes); simpl; [|reflexivity].
  rewrite Z.gtb_ltb. destruct (maxSize <? size file) eqn:E; simpl.
  - apply Z.ltb_lt in E. apply Z.leb_gt in E. rewrite E. reflexivity.
  - apply Z.ltb_ge in E. apply Z.leb_le in E. rewrite E. simpl.
    destruct (_ || _ || _); reflexivity.
Qed.

(** C7 (amended): [photoApi.uploadPhoto] throws before sending any request
    exactly when the room id or the uploader name fails its format check,
    the content type is not one of image/jpeg, image/jpg, image/png,
    image/gif, image/webp, the size exceeds 10 MiB, or the file name
    contains [..], [/] or [\]; otherwise it sends the file. *)
Theorem uploadPhoto_rejects_iff {A : Type} (post : File -> Res A) (roomId : jstr)
    (file : File) (uploaderName : jstr) :
  let rejected := negb (validRoomId roomId) || negb (validUserName uploaderName)
                  || negb (type_allowed file) || (maxSize <? size file)
                  || suspicious_name file in
  ((exists e, uploadPhoto post roomId file uploaderName = ([], Throw e)) <-> rejected = true)
  /\ (rejected = false -> uploadPhoto post roomId file uploaderName = ([file], post file)).
Proof.
  cbv zeta. unfold uploadPhoto.
  destruct (validRoomId roomId); simpl;
    [|split; [split; [reflexivity|eauto]|discriminate]].
  destruct (validUserName uploaderName); simpl;
    [|split; [split; [reflexivity|eauto]|discriminate]].
  rewrite validateFile_valid.
  assert (Hs : (size file <=? maxSize) = negb (maxSize <? size file)).
  { rewrite Z.leb_antisym. reflexivity. }
  rewrite Hs.
  destruct (type_allowed file), (maxSize <? size file), (suspicious_name file); simpl;
    (split; [split; [reflexivity|eauto]|discriminate]) ||
    (split; [split; [intros [e He]; discriminate|discriminate]|reflexivity]).
Qed.

Lemma uploadPhoto_rejects_iff_witness :
  let file := mkFile (js "photo.png") 4096 (js "image/png") in
  uploadPhoto (fun _ => Ok tt) sampleRoomId file sampleUser = ([file], Ok tt).
Proof.
  cbv zeta.
  apply (proj2 (uploadPhoto_rejects_iff (fun _ => Ok tt) sampleRoomId
                  (mkFile (js "photo.png") 4096 (js "image/png")) sampleUser)).
  vm_compute. reflexivity.
Defined.

Lemma processFiles_keeps_errors (l : list File) (a : list File) (b : list jstr) (e : jstr) :
  In e b -> In e (validationErrors (fold_left processFiles_step l (mkSelection a b))).
Proof.
  revert a b; induction l as [|y l IH]; intros a b Hin; simpl; [exact Hin|].
  unfold processFiles_step at 2. destruct (valid (validateFile y)); apply IH;
    [exact Hin|apply in_or_app; left; exact Hin].
Qed.

Lemma processFiles_fold (l : list File) (a : list File) (b : list jstr) :
  validFiles (fold_left processFiles_step l (mkSelection a b))
  = a ++ filter (fun f => valid (validateFile f)) l
  /\ forall f, In f l -> valid (validateFile f) = false ->
     In (name f ++ colon_sp ++ match verror (validateFile f) with
                                | Some m => m | None => js "undefined" end)
        (validationErrors (fold_left processFiles_step l (mkSelection a b))).
Proof.
  revert a b. induction l as [|x l IH]; intros a b; simpl.
  - split; [rewrite app_nil_r; reflexivity|intros f []].
  - unfold processFiles_step at 2 4.
    destruct (valid (validateFile x)) eqn:Hx; simpl.
    + destruct (IH (a ++ [x]) b) as [H1 H2]. split.
      * rewrite H1, <- app_assoc. reflexivity.
      * intros f [<-|Hf] Hv; [congruence|]. apply H2; assumption.
    + destruct (IH a (b ++ [name x ++ colon_sp ++
          match verror (validateFile x) with Some m => m | None => js "undefined" end]))
        as [H1 H2]. split; [exact H1|].
      intros f [<-|Hf] Hv; [|apply H2; assumption].
      apply processFiles_keeps_errors. apply in_or_app. right. left. reflexivity.
Qed.

(** C10: a file whose name contains [..], [/] or [\] but whose content
    type and size are acceptable is rejected by [validateInput.file] with
    ['Invalid filename.']; [processFiles] drops it from the selection and
    reports [`${name}: Invalid filename.`], and [photoApi.uploadPhoto]
    never sends it. *)
Theorem suspicious_name_rejected (file : File) (files : list File) :
  suspicious_name file = true -> type_allowed file = true -> size file <= maxSize ->
  validateFile file = mkValidation false (Some (js "Invalid filename."))
  /\ ~ In file (validFiles (processFiles files))
  /\ (In file files -> In (name file ++ colon_sp ++ js "Invalid filename.")
                         (validationErrors (processFiles files)))
  /\ (forall (post : File -> Res unit) roomId uploaderName,
        fst (uploadPhoto post roomId file uploaderName) = []).
Proof.
  intros Hn Ht Hs.
  assert (Hv : validateFile file = mkValidation false (Some (js "Invalid filename."))).
  { unfold validateFile. unfold type_allowed in Ht. rewrite Ht. simpl.
    rewrite Z.gtb_ltb. apply Z.ltb_ge in Hs. rewrite Hs.
    unfold suspicious_name in Hn. rewrite Hn. reflexivity. }
  destruct (processFiles_fold files [] []) as [H1 H2].
  split; [exact Hv|]. split; [|split].
  - unfold processFiles. rewrite H1. simpl. rewrite filter_In, Hv. simpl.
    intros [_ F]; discriminate.
  - intros Hin. unfold processFiles. specialize (H2 file Hin). rewrite Hv in H2.
    apply H2. reflexivity.
  - intros post roomId uploaderName. unfold uploadPhoto.
    destruct (validRoomId roomId), (validUserName uploaderName); simpl; try reflexivity.
    rewrite Hv. reflexivity.
Qed.

Lemma suspicious_name_rejected_witness :
  let file := mkFile (js "../etc.png") 100 (js "image/png") in
  validateFile file = mkValidation false (Some (js "Invalid filename.")).
Proof.
  cbv zeta.
  apply (suspicious_name_rejected (mkFile (js "../etc.png") 100 (js "image/png")) []);
    vm_compute; congruence.
Defined.

(** ** Privileged display name *)

(** C5 (as stated, refuted): the controls offered by [RoomInfo] differ
    between a user stored as ['이성일'] and a user stored as ['alice']: only
    the first is offered the room-deletion button. *)
Lemma roomInfo_depends_on_name :
  roomInfoControls (Some privilegedName) <> roomInfoControls (Some sampleUser)
  /\ In DeleteRoom (roomInfoControls (Some privilegedName))
  /\ ~ In DeleteRoom (roomInfoControls (Some sampleUser)).
Proof.
  vm_compute. split; [discriminate|]. split; [right; right; left; reflexivity|].
  intros [H|[H|[]]]; discriminate.
Qed.

(** C5 (amended): [RoomInfo] offers the room-deletion control exactly when
    the stored display name equals the hardcoded string ['이성일']; the
    other controls are the same for every name. *)
Theorem roomInfo_delete_iff_privileged (storedUserName : option jstr) :
  (In DeleteRoom (roomInfoControls storedUserName) <-> storedUserName = Some privilegedName)
  /\ filter (fun c => match c with DeleteRoom => false | _ => true end)
       (roomInfoControls storedUserName) = [CopyRoomId; CopyRoomLink].
Proof.
  unfold roomInfoControls.
  assert (Hn : forall n : jstr, js_or n [] = n) by (intros [|x n]; reflexivity).
  destruct storedUserName as [n|]; rewrite Hn; simpl.
  - destruct (jeqb n privilegedName) eqn:E; simpl.
    + apply jeqb_eq in E. subst n. split; [|reflexivity].
      split; [reflexivity|intros _; right; right; left; reflexivity].
    + split; [|reflexivity]. split.
      * intros [H|[H|[]]]; discriminate.
      * intros H. injection H as ->. rewrite jeqb_refl in E. discriminate.
  - split; [|reflexivity]. split; [intros [H|[H|[]]]; discriminate|discriminate].
Qed.

(** ** Batch partition and schedule *)

Lemma slice_step {A : Type} (l : list A) (i : nat) :
  slice l i (i + BATCH_SIZE) = firstn 5 (skipn i l).
Proof. unfold slice, BATCH_SIZE. f_equal. lia. Qed.

Lemma skipn_step {A : Type} (l : list A) (i : nat) :
  skipn i l = firstn 5 (skipn i l) ++ skipn (i + BATCH_SIZE) l.
Proof.
  unfold BATCH_SIZE. rewrite Nat.add_comm, <- skipn_skipn.
  symmetry. apply firstn_skipn.
Qed.

Lemma split_batches_nil_iff (fuel i : nat) (l : list File) :
  (List.length l <= i + BATCH_SIZE * fuel)%nat ->
  split_batches fuel i l = [] <-> (List.length l <= i)%nat.
Proof.
  destruct fuel as [|f]; simpl; intros H.
  - unfold BATCH_SIZE in H. split; [intros _; lia|reflexivity].
  - destruct (Nat.ltb i (List.length l)) eqn:E.
    + apply Nat.ltb_lt in E. split; [discriminate|lia].
    + apply Nat.ltb_ge in E. split; [intros _; exact E|reflexivity].
Qed.

Lemma split_batches_shape (fuel i : nat) (l : list File) :
  (List.length l <= i + BATCH_SIZE * fuel)%nat ->
  List.concat (split_batches fuel i l) = skipn i l /\ chunked_by_5 (split_batches fuel i l).
Proof.
  revert i. induction fuel as [|f IH]; intros i H; simpl.
  - unfold BATCH_SIZE in H. rewrite skipn_all2 by lia. split; [reflexivity|exact I].
  - destruct (Nat.ltb i (List.length l)) eqn:E.
    + apply Nat.ltb_lt in E.
      assert (H' : (List.length l <= i + BATCH_SIZE + BATCH_SIZE * f)%nat)
        by (unfold BATCH_SIZE in *; lia).
      destruct (IH (i + BATCH_SIZE)%nat H') as [Hc Hs].
      split.
      * simpl. rewrite Hc, slice_step. symmetry. apply skipn_step.
      * rewrite slice_step. destruct (split_batches f (i + BATCH_SIZE) l) eqn:R.
        -- cbn [chunked_by_5]. rewrite length_firstn, length_skipn. lia.
        -- cbn [chunked_by_5]. split; [|exact Hs].
           assert (Hlt : (i + BATCH_SIZE < List.length l)%nat).
           { destruct (Nat.lt_ge_cases (i + BATCH_SIZE) (List.length l)) as [h|h]; [exact h|].
             apply (split_batches_nil_iff f (i + BATCH_SIZE) l H') in h. congruence. }
           rewrite length_firstn, length_skipn. unfold BATCH_SIZE in *. lia.
    + apply Nat.ltb_ge in E. rewrite skipn_all2 by lia. split; [reflexivity|exact I].
Qed.

Lemma batch_loop1_spec (upload : File -> Res unit) (batches : list (list File))
    (idx : nat) (t : BatchTally) :
  batch_loop1 upload batches idx t
  = (fold_left tally_one (map (fun f => (f, upload f)) (List.concat batches)) t,
     spec_schedule BATCH_DELAY_1 batches).
Proof.
  revert idx t. induction batches as [|b rest IH]; intros idx t; [reflexivity|].
  cbn [batch_loop1]. rewrite IH. cbn [List.concat spec_schedule].
  rewrite map_app, fold_left_app, length_map. f_equal.
  destruct rest as [|b' rest']; cbn [List.length].
  - replace (Nat.ltb idx (1 + idx - 1)) with false
      by (symmetry; apply Nat.ltb_ge; lia). reflexivity.
  - replace (Nat.ltb idx (S (S (List.length rest')) + idx - 1)) with true
      by (symmetry; apply Nat.ltb_lt; lia). reflexivity.
Qed.

Lemma uploadFilesInBatches_spec (upload : File -> Res unit) (files : list File) :
  uploadFilesInBatches upload files
  = (fold_left tally_one (map (fun f => (f, upload f)) files) (mkTally 0 0 []),
     spec_schedule BATCH_DELAY_1 (split_batches (List.length files) 0 files)).
Proof.
  unfold uploadFilesInBatches. rewrite batch_loop1_spec.
  destruct (split_batches_shape (List.length files) 0 files) as [Hc _];
    [unfold BATCH_SIZE; lia|].
  rewrite Hc. reflexivity.
Qed.

(** ** The logged batch loop *)

Section LoggedProofs.

Context {DB : Type} (ingest : DB -> File -> DB * Res jstr).

Lemma run_batch_app (st : Server DB) (fl : list UploadLog) (l1 l2 : list (File * UploadLog)) :
  run_batch DB ingest st fl (l1 ++ l2)
  = let '(st1, fl1, os1) := run_batch DB ingest st fl l1 in
    let '(st2, fl2, os2) := run_batch DB ingest st1 fl1 l2 in
    (st2, fl2, os1 ++ os2).
Proof.
  revert st fl. induction l1 as [|p l1 IH]; intros st fl; simpl.
  - destruct (run_batch DB ingest st fl l2) as [[? ?] ?]. reflexivity.
  - destruct (upload_one DB ingest st fl p) as [[st1 fl1] o]. rewrite IH.
    destruct (run_batch DB ingest st1 fl1 l1) as [[st2 fl2] os1].
    destruct (run_batch DB ingest st2 fl2 l2) as [[st3 fl3] os2]. reflexivity.
Qed.

Lemma run_batch_length (st : Server DB) (fl : list UploadLog) (l : list (File * UploadLog)) :
  List.length (snd (run_batch DB ingest st fl l)) = List.length l.
Proof.
  revert st fl. induction l as [|p l IH]; intros st fl; simpl; [reflexivity|].
  destruct (upload_one DB ingest st fl p) as [[st1 fl1] o].
  specialize (IH st1 fl1). destruct (run_batch DB ingest st1 fl1 l) as [[st2 fl2] os].
  simpl in *. rewrite IH. reflexivity.
Qed.

Lemma tally_app (c f : nat) (os1 os2 : list FileOutcome) :
  tally c f (os1 ++ os2) = let '(c1, f1) := tally c f os1 in tally c1 f1 os2.
Proof.
  unfold tally. rewrite fold_left_app.
  destruct (fold_left _ os1 (c, f)). reflexivity.
Qed.

Lemma batch_loop_run (fuel i : nat) (pairs : list (File * UploadLog)) (st : Server DB)
    (acc : LoopAcc) :
  (List.length pairs <= i + BATCH_SIZE * fuel)%nat ->
  let '(st', acc', os, tr) := batch_loop DB ingest fuel i pairs st acc in
  run_batch DB ingest st (failedLogs acc) (skipn i pairs) = (st', failedLogs acc', os)
  /\ tally (completedCount acc) (failedCount acc) os = (completedCount acc', failedCount acc')
  /\ tr = spec_schedule BATCH_DELAY (split_batches fuel i (map fst pairs)).
Proof.
  revert i st acc. induction fuel as [|f IH]; intros i st acc H.
  - unfold BATCH_SIZE in H. simpl. rewrite skipn_all2 by lia. simpl.
    destruct acc; repeat split.
  - cbn [batch_loop split_batches]. rewrite length_map.
    destruct (Nat.ltb i (List.length pairs)) eqn:E.
    + apply Nat.ltb_lt in E.
      assert (H' : (List.length pairs <= i + BATCH_SIZE + BATCH_SIZE * f)%nat)
        by (unfold BATCH_SIZE in *; lia).
      pose proof (run_batch_length st (failedLogs acc) (slice pairs i (i + BATCH_SIZE))) as Hlen.
      destruct (run_batch DB ingest st (failedLogs acc) (slice pairs i (i + BATCH_SIZE)))
        as [[st1 fl1] br] eqn:Hb.
      destruct (tally (completedCount acc) (failedCount acc) br) as [c1 f1] eqn:Ht.
      specialize (IH (i + BATCH_SIZE)%nat st1 (mkAcc c1 f1 fl1) H').
      destruct (batch_loop DB ingest f (i + BATCH_SIZE) pairs st1 (mkAcc c1 f1 fl1))
        as [[[st2 acc2] os] tr] eqn:Hl.
      destruct IH as [IH1 [IH2 IH3]]. simpl in IH1, IH2.
      split; [|split].
      * rewrite (skipn_step pairs i), run_batch_app, <- slice_step, Hb, IH1. reflexivity.
      * rewrite tally_app, Ht. exact IH2.
      * cbn [spec_schedule]. simpl in Hlen.
        assert (Hs : map fst (slice pairs i (i + BATCH_SIZE))
                     = slice (map fst pairs) i (i + BATCH_SIZE)).
        { unfold slice. rewrite skipn_map, firstn_map. reflexivity. }
        rewrite Hs, Hlen, <- Hs, length_map. f_equal. f_equal.
        pose proof (split_batches_nil_iff f (i + BATCH_SIZE) (map fst pairs)) as Hn.
        rewrite length_map in Hn. specialize (Hn H').
        destruct (Nat.ltb (i + BATCH_SIZE) (List.length pairs)) eqn:E2.
        -- apply Nat.ltb_lt in E2.
           destruct (split_batches f (i + BATCH_SIZE) (map fst pairs)) eqn:R.
           ++ pose proof (proj1 Hn eq_refl). lia.
           ++ simpl. rewrite IH3. reflexivity.
        -- apply Nat.ltb_ge in E2. apply Hn in E2. rewrite E2 in IH3 |- *.
           rewrite IH3. reflexivity.
    + apply Nat.ltb_ge in E. rewrite skipn_all2 by lia. simpl.
      destruct acc; repeat split.
Qed.

End LoggedProofs.

Section RunProofs.

Context {DB : Type} (ingest : DB -> File -> DB * Res jstr).

Lemma create_logs_spec (st : Server DB) (sid : nat) (files : list File) :
  let '(st', lgs) := create_logs DB st sid files in
  map log_id lgs = seq (next_id DB st) (List.length files)
  /\ List.length lgs = List.length files
  /\ Forall (fun lg => log_session lg = sid) lgs
  /\ logs DB st' = logs DB st ++ lgs /\ sessions DB st' = sessions DB st
  /\ db DB st' = db DB st /\ next_id DB st' = (next_id DB st + List.length files)%nat.
Proof.
  revert st. induction files as [|file rest IH]; intros st; simpl.
  - rewrite app_nil_r, Nat.add_0_r. repeat split; constructor.
  - specialize (IH (mkServer DB (sessions DB st)
                      (logs DB st ++ [mkLog (next_id DB st) sid (name file) Pending None None 0])
                      (S (next_id DB st)) (db DB st))).
    destruct (create_logs DB _ sid rest) as [st2 lgs] eqn:E.
    destruct IH as [H1 [H2 [H3 [H4 [H5 [H6 H7]]]]]]. simpl in *.
    repeat split.
    + rewrite H1. reflexivity.
    + rewrite H2. reflexivity.
    + constructor; [reflexivity|exact H3].
    + rewrite H4, <- app_assoc. reflexivity.
    + exact H5.
    + exact H6.
    + rewrite H7. lia.
Qed.

Lemma run_batch_frame (st : Server DB) (fl : list UploadLog) (l : list (File * UploadLog)) :
  let st' := fst (fst (run_batch DB ingest st fl l)) in
  sessions DB st' = sessions DB st /\ next_id DB st' = next_id DB st.
Proof.
  revert st fl. induction l as [|[file lg] l IH]; intros st fl; simpl; [split; reflexivity|].
  unfold upload_one, uploadPhotoWithLogging.
  destruct (ingest (db DB st) file) as [d' r].
  destruct r as [photo|error];
    match goal with
    | |- context [run_batch DB ingest ?s ?f l] =>
        specialize (IH s f); destruct (run_batch DB ingest s f l) as [[st2 fl2] os]
    end; simpl in *; exact IH.
Qed.

Lemma tally_sum (c f : nat) (os : list FileOutcome) :
  let '(c', f') := tally c f os in (c' + f' = c + f + List.length os)%nat.
Proof.
  revert c f. induction os as [|o os IH]; intros c f; unfold tally; simpl.
  - lia.
  - destruct (success o); fold (tally (S c) f os); fold (tally c (S f) os);
      [specialize (IH (S c) f)|specialize (IH c (S f))];
      destruct (tally _ _ os); lia.
Qed.

Lemma find_session_fresh (old : list UploadSession) (new : UploadSession)
    (upd : UploadSession -> UploadSession) (sid : nat) :
  Forall (fun s => session_id s <> sid) old -> session_id new = sid ->
  session_id (upd new) = sid ->
  find (fun s => Nat.eqb (session_id s) sid)
       (map (fun s => if Nat.eqb (session_id s) sid then upd s else s) (old ++ [new]))
  = Some (upd new).
Proof.
  intros Hold Hnew Hupd. induction Hold as [|s old Hs Hold IH]; simpl.
  - rewrite Hnew, Nat.eqb_refl. simpl. rewrite Hupd, Nat.eqb_refl. reflexivity.
  - apply Nat.eqb_neq in Hs. rewrite Hs. simpl. rewrite Hs. exact IH.
Qed.

End RunProofs.

(** ** Session finalisation *)

Section SessionProofs.

Context {DB : Type} (ingest : DB -> File -> DB * Res jstr).

(** The result of one call of [uploadFilesWithLogging], unfolded: the
    session and logs it creates, and the batch loop seen as one sequential
    pass over all file/log pairs. *)
Lemma uploadFilesWithLogging_unfold (st : Server DB) (files : list File) :
  let sid := next_id DB st in
  let st1 := mkServer DB (sessions DB st ++ [mkSession sid (Z.of_nat (List.length files)) 0 0 InProgress])
               (logs DB st) (S sid) (db DB st) in
  let '(st2, lgs) := create_logs DB st1 sid files in
  let pairs := combine files lgs in
  let '(st3, fl, os) := run_batch DB ingest st2 [] pairs in
  let '(c, f) := tally 0 0 os in
  let r := uploadFilesWithLogging DB ingest st files in
  run_server DB r = updateSession DB st3 sid (Z.of_nat c) (Z.of_nat f) (finalStatus c f)
  /\ run_result DB r = mkResult sid (List.length files) c f fl
  /\ run_outcomes DB r = os
  /\ run_trace DB r = spec_schedule BATCH_DELAY (split_batches (List.length pairs) 0 files)
  /\ map fst pairs = files.
Proof.
  cbv zeta. unfold uploadFilesWithLogging, createSession. cbn [fst snd session_id].
  pose proof (create_logs_spec
    (mkServer DB (sessions DB st ++ [mkSession (next_id DB st) (Z.of_nat (List.length files)) 0 0 InProgress])
       (logs DB st) (S (next_id DB st)) (db DB st)) (next_id DB st) files) as Hc.
  destruct (create_logs DB _ (next_id DB st) files) as [st2 lgs] eqn:Ec.
  destruct Hc as [_ [Hlen _]].
  assert (Hfst : map fst (combine files lgs) = files).
  { clear Ec. revert lgs Hlen. induction files as [|x xs IH]; intros [|l ls] H;
      simpl in *; try discriminate; [reflexivity|]. rewrite IH by lia. reflexivity. }
  pose proof (batch_loop_run ingest (List.length (combine files lgs)) 0 (combine files lgs) st2
                (mkAcc 0 0 [])) as Hl.
  assert (Hfuel : (List.length (combine files lgs) <= 0 + BATCH_SIZE * List.length (combine files lgs))%nat)
    by (unfold BATCH_SIZE; lia).
  specialize (Hl Hfuel).
  destruct (batch_loop DB ingest _ 0 (combine files lgs) st2 (mkAcc 0 0 []))
    as [[[st3 acc] os] tr] eqn:El.
  destruct Hl as [Hrun [Ht Htr]]. simpl in Hrun, Ht. rewrite Hrun, Ht.
  cbn. rewrite Hfst in Htr. repeat split; try assumption.
Qed.

End SessionProofs.

Section SessionTheorems.

Context {DB : Type} (ingest : DB -> File -> DB * Res jstr).

Lemma finalStatus_cases (c f : nat) :
  status_of_string (finalStatus c f)
  = if Nat.eqb f 0 then Completed else if Nat.eqb c 0 then SessionFailed else PartiallyFailed.
Proof.
  unfold finalStatus. destruct (Nat.eqb f 0); [reflexivity|].
  destruct (Nat.eqb c 0); reflexivity.
Qed.

(** C2: when [uploadFilesWithLogging] finalises its session (session ids
    being fresh on the server), the session leaves InProgress with
    [completed_files + failed_files = total_files = files.length], and its
    status is Completed iff [failed_files = 0], Failed iff
    [completed_files = 0] and [failed_files > 0], PartiallyFailed
    otherwise. *)
Theorem uploadFilesWithLogging_session_terminal (st : Server DB) (files : list File)
    (Hfresh : forall s, In s (sessions DB st) -> (session_id s < next_id DB st)%nat) :
  let r := uploadFilesWithLogging DB ingest st files in
  exists s, find_session DB (run_server DB r) (r_session_id (run_result DB r)) = Some s
  /\ status s <> InProgress
  /\ completed_files s + failed_files s = total_files s
  /\ total_files s = Z.of_nat (List.length files)
  /\ (status s = Completed <-> failed_files s = 0)
  /\ (status s = SessionFailed <-> completed_files s = 0 /\ failed_files s > 0)
  /\ (status s = PartiallyFailed <->
        failed_files s <> 0 /\ ~ (completed_files s = 0 /\ failed_files s > 0)).
Proof.
  pose proof (uploadFilesWithLogging_unfold ingest st files) as U. cbv zeta in U |- *.
  pose proof (create_logs_spec
    (mkServer DB (sessions DB st ++ [mkSession (next_id DB st) (Z.of_nat (List.length files)) 0 0 InProgress])
       (logs DB st) (S (next_id DB st)) (db DB st)) (next_id DB st) files) as Hc.
  destruct (create_logs DB _ (next_id DB st) files) as [st2 lgs] eqn:Ec.
  destruct Hc as [_ [Hlen [_ [_ [Hses _]]]]].
  pose proof (run_batch_frame ingest st2 [] (combine files lgs)) as Hf.
  pose proof (run_batch_length ingest st2 [] (combine files lgs)) as Hl.
  destruct (run_batch DB ingest st2 [] (combine files lgs)) as [[st3 fl] os] eqn:Eb.
  simpl in Hf, Hl.
  pose proof (tally_sum 0 0 os) as Hsum.
  destruct (tally 0 0 os) as [c f] eqn:Et.
  destruct U as [Hsrv [Hres _]]. rewrite Hsrv, Hres. cbn [r_session_id].
  unfold find_session, updateSession. cbn [sessions]. rewrite (proj1 Hf), Hses. cbn [sessions].
  rewrite find_session_fresh.
  - eexists; split; [reflexivity|]. cbn [status completed_files failed_files total_files].
    rewrite finalStatus_cases.
    assert (Hn : (c + f = List.length files)%nat).
    { rewrite length_combine, Hlen, Nat.min_id in Hl. lia. }
    destruct (Nat.eqb f 0) eqn:Ef; [apply Nat.eqb_eq in Ef|apply Nat.eqb_neq in Ef].
    + subst f. repeat split; try discriminate; try lia.
    + destruct (Nat.eqb c 0) eqn:Ec0; [apply Nat.eqb_eq in Ec0|apply Nat.eqb_neq in Ec0].
      * subst c. repeat split; try discriminate; try lia; intros [H1 H2]; lia.
      * repeat split; try discriminate; try lia; intros [H1 H2]; lia.
  - apply Forall_forall. intros s Hs. specialize (Hfresh s Hs). lia.
  - reflexivity.
  - reflexivity.
Qed.

End SessionTheorems.

(** ** Batch schedule *)

Section ScheduleTheorems.

Context {DB : Type} (ingest : DB -> File -> DB * Res jstr).

Lemma chunked_by_5_seven (bs : list (list File)) :
  chunked_by_5 bs -> List.length (List.concat bs) = 7%nat ->
  map (@List.length File) bs = [5; 2]%nat.
Proof.
  destruct bs as [|b1 [|b2 rest]]; cbn [chunked_by_5 List.concat]; intros Hc Hl.
  - discriminate.
  - rewrite app_nil_r in Hl. lia.
  - destruct Hc as [H1 Hc]. rewrite length_app in Hl.
    destruct rest as [|b3 rest]; cbn [chunked_by_5 List.concat] in Hc, Hl.
    + rewrite app_nil_r in Hl. cbn. rewrite H1. f_equal. f_equal. lia.
    + destruct Hc as [H2 _]. rewrite length_app in Hl. lia.
Qed.

(** C3: for a non-empty list of files, both batch uploaders
    ([uploadFilesWithLogging] and [uploadFilesInBatches]) split the files
    into consecutive sub-batches of exactly 5 (the last one non-empty and of
    at most 5), start each sub-batch only after all outcomes of the previous
    one are settled, and put their fixed delay (4000 ms, resp. 1000 ms)
    between consecutive sub-batches and not after the last; 7 files give
    sub-batches of 5 then 2. *)
Theorem batch_upload_schedule (upload : File -> Res unit) (st : Server DB)
    (files : list File) (Hne : files <> []) :
  exists bs : list (list File),
    List.concat bs = files /\ chunked_by_5 bs /\ bs <> []
    /\ run_trace DB (uploadFilesWithLogging DB ingest st files) = spec_schedule BATCH_DELAY bs
    /\ snd (uploadFilesInBatches upload files) = spec_schedule BATCH_DELAY_1 bs
    /\ (List.length files = 7%nat -> map (@List.length File) bs = [5; 2]%nat).
Proof.
  exists (split_batches (List.length files) 0 files).
  destruct (split_batches_shape (List.length files) 0 files) as [Hc Hs];
    [unfold BATCH_SIZE; lia|].
  simpl in Hc.
  pose proof (uploadFilesWithLogging_unfold ingest st files) as U. cbv zeta in U.
  pose proof (create_logs_spec
    (mkServer DB (sessions DB st ++ [mkSession (next_id DB st) (Z.of_nat (List.length files)) 0 0 InProgress])
       (logs DB st) (S (next_id DB st)) (db DB st)) (next_id DB st) files) as Hcl.
  destruct (create_logs DB _ (next_id DB st) files) as [st2 lgs] eqn:Ec.
  destruct Hcl as [_ [Hlen _]].
  destruct (run_batch DB ingest st2 [] (combine files lgs)) as [[st3 fl] os].
  destruct (tally 0 0 os) as [c f].
  destruct U as [_ [_ [_ [Htr _]]]].
  rewrite length_combine, Hlen, Nat.min_id in Htr.
  split; [exact Hc|]. split; [exact Hs|]. split; [|split; [exact Htr|split]].
  - intros E. rewrite E in Hc. simpl in Hc. symmetry in Hc. contradiction.
  - rewrite uploadFilesInBatches_spec. reflexivity.
  - intros H7. apply chunked_by_5_seven; [exact Hs|]. rewrite Hc. exact H7.
Qed.

End ScheduleTheorems.

(** ** Per-file failure isolation *)

Section IsolationProofs.

Context {DB : Type} (ingest : DB -> File -> DB * Res jstr).

Local Abbreviation seq_outcomes := (seq_outcomes ingest).
Local Abbreviation db_after := (db_after ingest).

Lemma seq_outcomes_app (d : DB) (l1 l2 : list File) :
  seq_outcomes d (l1 ++ l2) = seq_outcomes d l1 ++ seq_outcomes (db_after d l1) l2.
Proof.
  revert d. induction l1 as [|f l1 IH]; intros d; [reflexivity|].
  simpl. unfold db_after. simpl. destruct (ingest d f) as [d' r]. simpl.
  rewrite IH. reflexivity.
Qed.

Lemma seq_outcomes_length (d : DB) (l : list File) :
  List.length (seq_outcomes d l) = List.length l.
Proof.
  revert d. induction l as [|f l IH]; intros d; simpl; [reflexivity|].
  destruct (ingest d f). simpl. rewrite IH. reflexivity.
Qed.

Lemma run_batch_views (st : Server DB) (fl : list UploadLog) (pairs : list (File * UploadLog)) :
  map outcome_view (snd (run_batch DB ingest st fl pairs)) = seq_outcomes (db DB st) (map fst pairs).
Proof.
  revert st fl. induction pairs as [|[file lg] pairs IH]; intros st fl; simpl; [reflexivity|].
  unfold upload_one, uploadPhotoWithLogging.
  destruct (ingest (db DB st) file) as [d' r].
  destruct r as [photo|error];
    match goal with
    | |- context [run_batch DB ingest ?s ?f pairs] =>
        specialize (IH s f); destruct (run_batch DB ingest s f pairs) as [[st2 fl2] os]
    end; simpl in *; rewrite IH; reflexivity.
Qed.

Lemma find_log_update (m : UploadLog -> UploadLog) (id k : nat) (l : list UploadLog) :
  (forall lg, log_id (m lg) = log_id lg) ->
  find (fun lg => Nat.eqb (log_id lg) k) (update_log m id l)
  = if Nat.eqb k id then option_map m (find (fun lg => Nat.eqb (log_id lg) k) l)
    else find (fun lg => Nat.eqb (log_id lg) k) l.
Proof.
  intros Hm. induction l as [|lg l IH]; simpl.
  - destruct (Nat.eqb k id); reflexivity.
  - destruct (Nat.eqb (log_id lg) id) eqn:E1.
    + rewrite Hm. apply Nat.eqb_eq in E1. rewrite E1.
      destruct (Nat.eqb id k) eqn:E2.
      * apply Nat.eqb_eq in E2. subst k. rewrite Nat.eqb_refl. reflexivity.
      * rewrite Nat.eqb_sym, E2. rewrite IH, Nat.eqb_sym, E2. reflexivity.
    + destruct (Nat.eqb (log_id lg) k) eqn:E2.
      * apply Nat.eqb_eq in E2. subst k. rewrite E1. reflexivity.
      * rewrite IH. reflexivity.
Qed.

Lemma mark_of_id (r : Res jstr) (lg : UploadLog) : log_id (mark_of r lg) = log_id lg.
Proof. destruct r; reflexivity. Qed.

Lemma upload_one_eq (st : Server DB) (fl : list UploadLog) (file : File) (lg : UploadLog) :
  let '(d', r) := ingest (db DB st) file in
  upload_one DB ingest st fl (file, lg)
  = (mkServer DB (sessions DB st) (update_log (mark_of r) (log_id lg) (logs DB st)) (next_id DB st) d',
     match r with Ok _ => fl | Throw _ => fl ++ [lg] end,
     match r with
     | Ok photo => mkOutcome true file lg (Some photo) None
     | Throw error => mkOutcome false file lg None (Some (errorMessage error))
     end).
Proof.
  unfold upload_one, uploadPhotoWithLogging.
  destruct (ingest (db DB st) file) as [d' [photo|error]]; reflexivity.
Qed.

Lemma run_batch_other_logs (st : Server DB) (fl : list UploadLog) (pairs : list (File * UploadLog))
    (k : nat) :
  ~ In k (map (fun p => log_id (snd p)) pairs) ->
  find_log DB (fst (fst (run_batch DB ingest st fl pairs))) k = find_log DB st k.
Proof.
  revert st fl. induction pairs as [|[file lg] pairs IH]; intros st fl Hk;
    cbn [run_batch]; [reflexivity|].
  simpl in Hk. pose proof (upload_one_eq st fl file lg) as U.
  destruct (ingest (db DB st) file) as [d' r]. rewrite U.
  set (st1 := mkServer DB _ _ _ _). set (fl1 := match r with Ok _ => fl | Throw _ => fl ++ [lg] end).
  specialize (IH st1 fl1).
  destruct (run_batch DB ingest st1 fl1 pairs) as [[st2 fl2] os].
  simpl in *. rewrite IH by tauto. subst st1.
  unfold find_log. simpl. rewrite find_log_update by apply mark_of_id.
  destruct (Nat.eqb k (log_id lg)) eqn:Ek; [|reflexivity].
  apply Nat.eqb_eq in Ek. exfalso. apply Hk. left. symmetry. exact Ek.
Qed.

Lemma run_batch_records (st : Server DB) (fl : list UploadLog) (pairs : list (File * UploadLog)) :
  NoDup (map (fun p => log_id (snd p)) pairs) ->
  (forall p, In p pairs -> exists lg0, find_log DB st (log_id (snd p)) = Some lg0) ->
  forall o, In o (snd (run_batch DB ingest st fl pairs)) ->
  outcome_recorded (fst (fst (run_batch DB ingest st fl pairs))) o.
Proof.
  revert st fl. induction pairs as [|[file lg] pairs IH]; intros st fl Hnd Hex o Ho;
    cbn [run_batch] in *; [contradiction|].
  pose proof (upload_one_eq st fl file lg) as U.
  inversion Hnd as [|? ? Hnotin Hnd']; subst.
  destruct (Hex (file, lg) (or_introl eq_refl)) as [lg0 Hlg0]. simpl in Hlg0.
  destruct (ingest (db DB st) file) as [d' r] eqn:Ei. rewrite U in Ho |- *.
  set (st1 := mkServer DB _ _ _ _) in *.
  set (fl1 := match r with Ok _ => fl | Throw _ => fl ++ [lg] end) in *.
  assert (Hst1 : forall k, find_log DB st1 k =
            if Nat.eqb k (log_id lg) then option_map (mark_of r) (find_log DB st k)
            else find_log DB st k).
  { intros k. unfold find_log, st1. simpl. apply find_log_update, mark_of_id. }
  pose proof (run_batch_other_logs st1 fl1 pairs (log_id lg) Hnotin) as Hkeep.
  specialize (IH st1 fl1 Hnd').
  destruct (run_batch DB ingest st1 fl1 pairs) as [[st2 fl2] os]. simpl in *.
  destruct Ho as [<-|Ho].
  - destruct r as [photo|error]; unfold outcome_recorded; cbn [o_log success o_photo o_error];
      rewrite Hkeep, Hst1, Nat.eqb_refl, Hlg0; simpl.
    + eexists; split; [reflexivity|]. split; [intros _; split; reflexivity|discriminate].
    + eexists; split; [reflexivity|]. split; [discriminate|].
      intros _. exists error. repeat split.
  - apply IH; [|exact Ho].
    intros p Hp. rewrite Hst1.
    destruct (Nat.eqb (log_id (snd p)) (log_id lg)) eqn:E.
    + apply Nat.eqb_eq in E. rewrite E, Hlg0. eexists; reflexivity.
    + apply Hex. right. exact Hp.
Qed.

Lemma find_some_in {A : Type} (p : A -> bool) (l : list A) (x : A) :
  In x l -> p x = true -> exists y, find p l = Some y.
Proof.
  induction l as [|a l IH]; simpl; [contradiction|].
  intros [->|Hx] Hp.
  - rewrite Hp. eexists; reflexivity.
  - destruct (p a); [eexists; reflexivity|]. apply IH; assumption.
Qed.

Lemma find_skip_prefix {A : Type} (p : A -> bool) (l1 l2 : list A) :
  (forall x, In x l1 -> p x = false) -> find p (l1 ++ l2) = find p l2.
Proof.
  induction l1 as [|a l1 IH]; simpl; intros H; [reflexivity|].
  rewrite (H a (or_introl eq_refl)). apply IH. intros x Hx. apply H. right. exact Hx.
Qed.

Lemma combine_snd {A B : Type} (l : list A) (l' : list B) :
  List.length l = List.length l' -> map snd (combine l l') = l'.
Proof.
  revert l'. induction l as [|a l IH]; intros [|b l'] H; simpl in *; try discriminate;
    [reflexivity|]. rewrite IH by lia. reflexivity.
Qed.

Lemma combine_fst {A B : Type} (l : list A) (l' : list B) :
  List.length l = List.length l' -> map fst (combine l l') = l.
Proof.
  revert l'. induction l as [|a l IH]; intros [|b l'] H; simpl in *; try discriminate;
    [reflexivity|]. rewrite IH by lia. reflexivity.
Qed.

End IsolationProofs.

Section IsolationTheorem.

Context {DB : Type} (ingest : DB -> File -> DB * Res jstr).

Lemma uploadFilesWithLogging_views (st : Server DB) (files : list File) :
  map outcome_view (run_outcomes DB (uploadFilesWithLogging DB ingest st files))
  = seq_outcomes ingest (db DB st) files.
Proof.
  pose proof (uploadFilesWithLogging_unfold ingest st files) as U. cbv zeta in U.
  pose proof (create_logs_spec
    (mkServer DB (sessions DB st ++ [mkSession (next_id DB st) (Z.of_nat (List.length files)) 0 0 InProgress])
       (logs DB st) (S (next_id DB st)) (db DB st)) (next_id DB st) files) as Hc.
  destruct (create_logs DB _ (next_id DB st) files) as [st2 lgs] eqn:Ec.
  destruct Hc as [_ [Hlen [_ [_ [_ [Hdb _]]]]]].
  pose proof (run_batch_views ingest st2 [] (combine files lgs)) as Hv.
  destruct (run_batch DB ingest st2 [] (combine files lgs)) as [[st3 fl] os].
  destruct (tally 0 0 os) as [c f].
  destruct U as [_ [_ [Ho _]]]. rewrite Ho. simpl in Hv. rewrite Hv, Hdb.
  simpl. rewrite combine_fst by lia. reflexivity.
Qed.

Lemma seq_outcomes_files (d : DB) (l : list File) :
  map (fun v => fst (fst (fst v))) (seq_outcomes ingest d l) = l.
Proof.
  revert d. induction l as [|f l IH]; intros d; simpl; [reflexivity|].
  destruct (ingest d f) as [d' [p|e]]; simpl; rewrite IH; reflexivity.
Qed.

(** C4: in [uploadFilesWithLogging] every file gets its own outcome, in
    order; the outcome is recorded on that file's log (Success with the
    photo id, or Failed with a message derived from the failure, the same
    failure the client reports); the run always completes with an aggregate
    result counting every file; each file's outcome is the one it gets when
    ingested on its own after the preceding files; and, the pipeline's
    failures leaving the photo store unchanged, removing a failing file
    leaves the outcomes of all the other files, in the same batch or later
    ones, unchanged. *)
Theorem uploadFilesWithLogging_isolates_failures (st : Server DB) (files : list File)
    (Hfresh : forall lg, In lg (logs DB st) -> (log_id lg < next_id DB st)%nat)
    (Hatomic : forall d f d' e, ingest d f = (d', Throw e) -> d' = d) :
  let r := uploadFilesWithLogging DB ingest st files in
  map o_file (run_outcomes DB r) = files
  /\ (forall o, In o (run_outcomes DB r) -> outcome_recorded (run_server DB r) o)
  /\ (successful_uploads (run_result DB r) + failed_uploads (run_result DB r)
      = List.length files)%nat
  /\ map outcome_view (run_outcomes DB r) = seq_outcomes ingest (db DB st) files
  /\ (forall pre f post o, files = pre ++ f :: post ->
        nth_error (run_outcomes DB r) (List.length pre) = Some o -> success o = false ->
        map outcome_view (run_outcomes DB (uploadFilesWithLogging DB ingest st (pre ++ post)))
        = map outcome_view (firstn (List.length pre) (run_outcomes DB r)
                            ++ skipn (S (List.length pre)) (run_outcomes DB r))).
Proof.
  cbv zeta.
  pose proof (uploadFilesWithLogging_views st files) as Hviews.
  split; [|split; [|split; [|split]]].
  - transitivity (map (fun v => fst (fst (fst v))) (seq_outcomes ingest (db DB st) files));
      [rewrite <- Hviews, map_map; reflexivity|apply seq_outcomes_files].
  - pose proof (uploadFilesWithLogging_unfold ingest st files) as U. cbv zeta in U.
    pose proof (create_logs_spec
      (mkServer DB (sessions DB st ++ [mkSession (next_id DB st) (Z.of_nat (List.length files)) 0 0 InProgress])
         (logs DB st) (S (next_id DB st)) (db DB st)) (next_id DB st) files) as Hc.
    destruct (create_logs DB _ (next_id DB st) files) as [st2 lgs] eqn:Ec.
    destruct Hc as [Hids [Hlen [_ [Hlogs _]]]]. cbn [next_id logs] in Hids, Hlogs.
    pose proof (run_batch_records ingest st2 [] (combine files lgs)) as Hrec.
    destruct (run_batch DB ingest st2 [] (combine files lgs)) as [[st3 fl] os].
    destruct (tally 0 0 os) as [c f].
    destruct U as [Hsrv [_ [Ho _]]]. rewrite Ho, Hsrv. simpl in Hrec.
    intros o Hin. apply Hrec; [| |exact Hin].
    + rewrite <- map_map, combine_snd, Hids by lia. apply seq_NoDup.
    + intros p Hp. unfold find_log. rewrite Hlogs, find_skip_prefix.
      * apply (find_some_in _ _ (snd p)); [|apply Nat.eqb_refl].
        rewrite <- (combine_snd files lgs (eq_sym Hlen)). apply in_map. exact Hp.
      * intros x Hx. apply Nat.eqb_neq. specialize (Hfresh x Hx).
        assert (Hp' : In (log_id (snd p)) (map log_id lgs)).
        { rewrite <- (combine_snd files lgs (eq_sym Hlen)), map_map. apply in_map with (f := fun p => log_id (snd p)). exact Hp. }
        rewrite Hids in Hp'. apply in_seq in Hp'. lia.
  - pose proof (uploadFilesWithLogging_unfold ingest st files) as U. cbv zeta in U.
    pose proof (create_logs_spec
      (mkServer DB (sessions DB st ++ [mkSession (next_id DB st) (Z.of_nat (List.length files)) 0 0 InProgress])
         (logs DB st) (S (next_id DB st)) (db DB st)) (next_id DB st) files) as Hc.
    destruct (create_logs DB _ (next_id DB st) files) as [st2 lgs] eqn:Ec.
    destruct Hc as [_ [Hlen _]].
    pose proof (run_batch_length ingest st2 [] (combine files lgs)) as Hl.
    destruct (run_batch DB ingest st2 [] (combine files lgs)) as [[st3 fl] os].
    pose proof (tally_sum 0 0 os) as Hsum.
    destruct (tally 0 0 os) as [c f].
    destruct U as [_ [Hres _]]. rewrite Hres. simpl in *.
    rewrite length_combine, Hlen, Nat.min_id in Hl. lia.
  - exact Hviews.
  - intros pre f post o Hfiles Hnth Hfail.
    rewrite uploadFilesWithLogging_views, map_app, <- firstn_map, <- skipn_map, Hviews, Hfiles.
    rewrite !seq_outcomes_app.
    assert (Hk := seq_outcomes_length ingest (db DB st) pre).
    apply (map_nth_error outcome_view) in Hnth.
    rewrite Hviews, Hfiles, seq_outcomes_app in Hnth.
    rewrite nth_error_app2 in Hnth by lia. rewrite Hk, Nat.sub_diag in Hnth.
    cbn [seq_outcomes] in Hnth |- *.
    destruct (ingest (db_after ingest (db DB st) pre) f) as [d' r] eqn:Ei.
    destruct r as [p|e].
    + simpl in Hnth. unfold outcome_view in Hnth. congruence.
    + apply Hatomic in Ei. subst d'.
      rewrite firstn_app, skipn_app, Hk, Nat.sub_diag, firstn_O, app_nil_r.
      rewrite firstn_all2 by lia.
      rewrite (skipn_all2 (seq_outcomes ingest (db DB st) pre)) by lia.
      replace (S (List.length pre) - List.length pre)%nat with 1%nat by lia.
      reflexivity.
Qed.

End IsolationTheorem.

(** ** Batch summary and duplicate classification *)

Lemma tally_fold (upload : File -> Res unit) (l : list File) (t : BatchTally) :
  fold_left tally_one (map (fun f => (f, upload f)) l) t
  = mkTally (completedFiles t + List.length (filter (fun f => match upload f with Ok _ => true | _ => false end) l))
            (skippedFiles t + List.length (filter (fun f => match upload f with
                                                             | Throw e => is_duplicate e | _ => false end) l))
            (errors t ++ flat_map (fun f => match upload f with
                                           | Ok _ => [] | Throw e => [error_line f e] end) l).
Proof.
  revert t. induction l as [|f l IH]; intros [c s es]; simpl.
  - rewrite !Nat.add_0_r, app_nil_r. reflexivity.
  - rewrite IH. simpl. destruct (upload f) as [u|e]; simpl.
    + f_equal; lia.
    + destruct (is_duplicate e); simpl; f_equal; try lia; rewrite <- app_assoc; reflexivity.
Qed.

(** C9: [uploadFilesInBatches] returns an aggregate summary with one error
    line per rejected file, in order, each starting with the file's name;
    [handleUpload] reports as uploaded the files that succeeded, as skipped
    the files rejected as duplicates (HTTP 409, reported with their own
    "already uploaded" line) and as failed only the other rejected files. *)
Theorem uploadFilesInBatches_summary (upload : File -> Res unit) (files : list File) :
  let t := fst (uploadFilesInBatches upload files) in
  upload_summary t
  = (List.length (filter (fun f => match upload f with Ok _ => true | _ => false end) files),
     List.length (filter (fun f => match upload f with
                                   | Throw e => is_duplicate e | _ => false end) files),
     List.length (filter (fun f => match upload f with
                                   | Throw e => negb (is_duplicate e) | _ => false end) files))
  /\ errors t = flat_map (fun f => match upload f with
                                  | Ok _ => [] | Throw e => [error_line f e] end) files
  /\ (forall f, In f files ->
        match upload f with
        | Ok _ => True
        | Throw e => exists m, In (name f ++ m) (errors t)
                     /\ (is_duplicate e = true -> m = msg_duplicate)
        end).
Proof.
  cbv zeta. rewrite uploadFilesInBatches_spec, tally_fold. simpl.
  split; [|split; [reflexivity|]].
  - unfold upload_summary. simpl. f_equal.
    assert (H : forall l : list File,
      List.length (flat_map (fun f => match upload f with
                                     | Ok _ => [] | Throw e => [error_line f e] end) l)
      = (List.length (filter (fun f => match upload f with
                                      | Throw e => is_duplicate e | _ => false end) l)
         + List.length (filter (fun f => match upload f with
                                        | Throw e => negb (is_duplicate e) | _ => false end) l))%nat).
    { induction l as [|f l IH]; simpl; [reflexivity|].
      destruct (upload f) as [u|e]; simpl; [exact IH|].
      destruct (is_duplicate e); simpl; rewrite IH; lia. }
    rewrite H. lia.
  - intros f Hf. destruct (upload f) as [u|e] eqn:Eu; [exact I|].
    exists (match response_status e with
            | Some 409 => msg_duplicate
            | Some 400 => colon_sp ++ js_or (match response_detail e with Some d => d | None => [] end)
                                            msg_bad_request
            | Some 413 => msg_too_large
            | Some 429 => msg_too_many
            | Some 419 => msg_csrf
            | _ => msg_upload_failed ++ js_or (err_message e) msg_unknown ++ [41]
            end).
    split.
    + apply in_flat_map. exists f. split; [exact Hf|]. rewrite Eu. left.
      unfold error_line. destruct (response_status e) as [[|p|p]|]; try reflexivity;
        repeat (destruct p as [p|p|]; try reflexivity).
    + unfold is_duplicate. destruct (response_status e) as [[|p|p]|]; try discriminate;
        repeat (destruct p as [p|p|]; try discriminate); reflexivity.
Qed.

(** ** Retrying failed uploads *)

(** C8 (as stated, refuted by the code): after an upload whose one file
    failed, [retryFailedUploads] with a stored user name and the session at
    hand resets the log to Retrying, but submits no file through the
    Ingestion Pipeline: the log stays Retrying instead of ending in Success
    or Failed, and the alert reports 0 successes and 0 failures. *)
Lemma retry_leaves_log_retrying :
  let st := mkServer unit [sampleFailedSession] [sampleFailedLog] 1 tt in
  let r := retryFailedUploads unit None None st (Some (mkResult 0 1 0 1 [sampleFailedLog]))
             (Some sampleFailedSession) (Some sampleUser) in
  retry_submitted unit r = []
  /\ logs unit (retry_server unit r) = [mkLog 0 0 (js "a.jpg") Retrying None None 1]
  /\ retry_alert unit r = Some (AlertRetryDone 0 0)
  /\ retry_refreshed unit r = true.
Proof. vm_compute. repeat split. Qed.

(** C8: what [retryFailedUploads] does.  It never sends a file through the
    Ingestion Pipeline.  When there are failed files and the retry request
    is answered, the server is left exactly as the reset of the named logs
    makes it (each named Failed log becomes Retrying, its error cleared and
    its retry count incremented), so no retried log is uploaded again.  With
    no user name (null or empty) it only alerts; with a name, the session
    and the logs request answered, it alerts the number of the session's
    logs that are 'pending' as successes and 0 failures.  A rejected retry
    request leaves the server unchanged. *)
Theorem retryFailedUploads_never_reuploads (DB : Type)
    (retry_rejects logs_rejects : option HttpError) (st : Server DB)
    (uploadResult : option UploadResult) (uploadSession : option UploadSession)
    (userName : option jstr) :
  let r := retryFailedUploads DB retry_rejects logs_rejects st uploadResult uploadSession userName in
  retry_submitted DB r = []
  /\ (forall e, retry_rejects = Some e -> retry_server DB r = st)
  /\ (forall res, uploadResult = Some res -> r_failed_files res <> [] -> retry_rejects = None ->
        retry_server DB r = retryLogs DB st (map log_id (r_failed_files res))
        /\ (forall lg, In lg (logs DB st) -> log_status lg = LogFailed ->
              In (log_id lg) (map log_id (r_failed_files res)) ->
              In (mkLog (log_id lg) (log_session lg) (log_filename lg) Retrying None None
                        (S (retry_count lg))) (logs DB (retry_server DB r)))
        /\ ((match userName with Some u => js_truthy u | None => false end) = false ->
              retry_alert DB r = Some AlertNoUserName)
        /\ (forall u session, userName = Some u -> js_truthy u = true ->
              uploadSession = Some session -> logs_rejects = None ->
              retry_alert DB r
              = Some (AlertRetryDone
                        (List.length (filter is_pending
                           (getSessionLogs DB (retry_server DB r) (session_id session)))) 0))).
Proof.
  cbv zeta. unfold retryFailedUploads.
  assert (Hcount : forall (l : list UploadLog) n,
             fold_left (fun '(ok, fail) (_ : UploadLog) => (S ok, fail)) l (n, 0%nat)
             = ((n + List.length l)%nat, 0%nat)).
  { induction l as [|x l IH]; intros n; simpl; [f_equal; lia|]. rewrite IH. f_equal. lia. }
  assert (Hreset : forall ids lg, In lg (logs DB st) -> log_status lg = LogFailed ->
            In (log_id lg) ids ->
            In (mkLog (log_id lg) (log_session lg) (log_filename lg) Retrying None None
                      (S (retry_count lg)))
               (logs DB (retryLogs DB st ids))).
  { intros ids lg Hlg Hst Hid. unfold retryLogs. cbn [logs]. apply in_map_iff.
    exists lg. split; [|exact Hlg].
    assert (Hex : existsb (Nat.eqb (log_id lg)) ids = true).
    { apply existsb_exists. exists (log_id lg). split; [exact Hid|apply Nat.eqb_refl]. }
    rewrite Hex, Hst. reflexivity. }
  destruct uploadResult as [res|].
  2:{ repeat split; intros; congruence. }
  destruct (r_failed_files res) as [|lg0 rest] eqn:Ef.
  { repeat split; try reflexivity; intros; congruence. }
  destruct retry_rejects as [e|].
  { repeat split; try reflexivity; intros; discriminate. }
  split; [|split].
  - destruct (negb _); [reflexivity|].
    destruct uploadSession as [session|]; [|reflexivity].
    destruct logs_rejects as [e|]; [reflexivity|].
    rewrite Hcount. reflexivity.
  - intros e He. discriminate.
  - intros res' Hr _ _. injection Hr as <-. rewrite Ef.
    destruct (match userName with Some u => js_truthy u | None => false end) eqn:Eu.
    + cbn [negb].
      assert (Hserv : retry_server DB
                (match uploadSession with
                 | Some session =>
                     match logs_rejects with
                     | Some error =>
                         mkRetry DB (retryLogs DB st (map log_id (lg0 :: rest))) []
                           (Some (AlertRetryFailed (err_message error))) None false
                     | None =>
                         let '(retrySuccessCount, retryFailCount) :=
                           fold_left (fun '(ok, fail) (_ : UploadLog) => (S ok, fail))
                             (filter is_pending
                                (getSessionLogs DB (retryLogs DB st (map log_id (lg0 :: rest)))
                                   (session_id session))) (0%nat, 0%nat) in
                         mkRetry DB (retryLogs DB st (map log_id (lg0 :: rest))) []
                           (Some (AlertRetryDone retrySuccessCount retryFailCount)) None true
                     end
                 | None =>
                     mkRetry DB (retryLogs DB st (map log_id (lg0 :: rest))) []
                       (Some (AlertRetryFailed (err_message null_id_error))) None false
                 end) = retryLogs DB st (map log_id (lg0 :: rest))).
      { destruct uploadSession as [session|]; [|reflexivity].
        destruct logs_rejects as [e|]; [reflexivity|]. rewrite Hcount. reflexivity. }
      rewrite Hserv. split; [reflexivity|]. split; [exact (Hreset _)|]. split.
      * intros Hf. discriminate.
      * intros u session Hu Htr Hs Hl. subst uploadSession logs_rejects.
        rewrite Hcount. reflexivity.
    + cbn [negb retry_server retry_alert]. split; [reflexivity|]. split; [exact (Hreset _)|].
      split; [reflexivity|].
      intros u session Hu Htr. subst userName. cbn in Eu. congruence.
Qed.

(** ** Instances on sample data *)

Lemma uploadFilesWithLogging_session_terminal_witness :
  (forall s, In s (sessions (list jstr) sampleServer) ->
             (session_id s < next_id (list jstr) sampleServer)%nat)
  /\ let r := uploadFilesWithLogging (list jstr) sampleIngest sampleServer dupFiles in
     exists s, find_session (list jstr) (run_server (list jstr) r) (r_session_id (run_result (list jstr) r)) = Some s
     /\ status s <> InProgress
     /\ completed_files s + failed_files s = total_files s
     /\ total_files s = Z.of_nat (List.length dupFiles)
     /\ (status s = Completed <-> failed_files s = 0)
     /\ (status s = SessionFailed <-> completed_files s = 0 /\ failed_files s > 0)
     /\ (status s = PartiallyFailed <->
           failed_files s <> 0 /\ ~ (completed_files s = 0 /\ failed_files s > 0)).
Proof.
  assert (H : forall s, In s (sessions (list jstr) sampleServer) ->
             (session_id s < next_id (list jstr) sampleServer)%nat) by (intros s []).
  split; [exact H|].
  exact (uploadFilesWithLogging_session_terminal sampleIngest sampleServer dupFiles H).
Defined.

Lemma batch_upload_schedule_witness :
  sevenFiles <> [] /\
  exists bs : list (list File),
    List.concat bs = sevenFiles /\ chunked_by_5 bs /\ bs <> []
    /\ run_trace (list jstr) (uploadFilesWithLogging (list jstr) sampleIngest sampleServer sevenFiles)
       = spec_schedule BATCH_DELAY bs
    /\ snd (uploadFilesInBatches (fun _ => Ok tt) sevenFiles) = spec_schedule BATCH_DELAY_1 bs
    /\ (List.length sevenFiles = 7%nat -> map (@List.length File) bs = [5; 2]%nat).
Proof.
  assert (H : sevenFiles <> []) by (vm_compute; discriminate).
  split; [exact H|].
  exact (batch_upload_schedule sampleIngest (fun _ => Ok tt) sampleServer sevenFiles H).
Defined.

Lemma uploadFilesWithLogging_isolates_failures_witness :
  (forall lg, In lg (logs (list jstr) sampleServer) -> (log_id lg < next_id (list jstr) sampleServer)%nat)
  /\ (forall d f d' e, sampleIngest d f = (d', Throw e) -> d' = d)
  /\ let r := uploadFilesWithLogging (list jstr) sampleIngest sampleServer dupFiles in
     map o_file (run_outcomes (list jstr) r) = dupFiles
     /\ (forall o, In o (run_outcomes (list jstr) r) -> outcome_recorded (run_server (list jstr) r) o)
     /\ (successful_uploads (run_result (list jstr) r) + failed_uploads (run_result (list jstr) r)
         = List.length dupFiles)%nat
     /\ map outcome_view (run_outcomes (list jstr) r) = seq_outcomes sampleIngest (db (list jstr) sampleServer) dupFiles
     /\ (forall pre f post o, dupFiles = pre ++ f :: post ->
           nth_error (run_outcomes (list jstr) r) (List.length pre) = Some o -> success o = false ->
           map outcome_view (run_outcomes (list jstr)
                               (uploadFilesWithLogging (list jstr) sampleIngest sampleServer (pre ++ post)))
           = map outcome_view (firstn (List.length pre) (run_outcomes (list jstr) r)
                               ++ skipn (S (List.length pre)) (run_outcomes (list jstr) r))).
Proof.
  assert (H1 : forall lg, In lg (logs (list jstr) sampleServer) ->
                 (log_id lg < next_id (list jstr) sampleServer)%nat) by (intros lg []).
  assert (H2 : forall d f d' e, sampleIngest d f = (d', Throw e) -> d' = d).
  { intros d f d' e. unfold sampleIngest. destruct (existsb (jeqb (name f)) d); congruence. }
  split; [exact H1|]. split; [exact H2|].
  exact (uploadFilesWithLogging_isolates_failures sampleIngest sampleServer dupFiles H1 H2).
Defined.

(** * Further properties of the frontend *)

(** ** Strings: trim and single-character replacement *)

Lemma drop_spaces_split (s : jstr) :
  exists sp, s = sp ++ drop_spaces s /\ forallb is_js_space sp = true.
Proof.
  induction s as [|c s [sp [Hs Hsp]]]; simpl.
  - exists []. split; reflexivity.
  - destruct (is_js_space c) eqn:Ec.
    + exists (c :: sp). simpl. rewrite Ec, Hsp. split; [rewrite Hs at 1; reflexivity|reflexivity].
    + exists []. split; reflexivity.
Qed.

Lemma drop_spaces_lead (s : jstr) : no_lead_space (drop_spaces s).
Proof.
  induction s as [|c s IH]; simpl; [exact I|].
  destruct (is_js_space c) eqn:Ec; [exact IH|exact Ec].
Qed.

Lemma drop_spaces_id (s : jstr) : no_lead_space s -> drop_spaces s = s.
Proof. destruct s as [|c s]; simpl; [reflexivity|]. intros H. rewrite H. reflexivity. Qed.

Lemma drop_spaces_idem (s : jstr) : drop_spaces (drop_spaces s) = drop_spaces s.
Proof. apply drop_spaces_id, drop_spaces_lead. Qed.

Lemma no_lead_space_app (a b : jstr) : a <> [] -> no_lead_space (a ++ b) -> no_lead_space a.
Proof. destruct a; simpl; [congruence|tauto]. Qed.

Lemma trim_lead (s : jstr) : no_lead_space (trim s).
Proof.
  unfold trim. set (w := drop_spaces s).
  assert (Hw : no_lead_space w) by apply drop_spaces_lead.
  destruct (drop_spaces_split (rev w)) as [sp [Hs _]].
  destruct (rev (drop_spaces (rev w))) as [|c t] eqn:E; [exact I|].
  assert (Hw' : w = rev (drop_spaces (rev w)) ++ rev sp).
  { rewrite <- rev_app_distr, <- Hs, rev_involutive. reflexivity. }
  rewrite E in Hw'. rewrite Hw' in Hw. exact Hw.
Qed.

Lemma trim_idem (s : jstr) : trim (trim s) = trim s.
Proof.
  pose proof (trim_lead s) as H. unfold trim at 1.
  rewrite (drop_spaces_id _ H). unfold trim. rewrite rev_involutive, drop_spaces_idem.
  reflexivity.
Qed.

Lemma drop_spaces_incl (s : jstr) (c : Z) : In c (drop_spaces s) -> In c s.
Proof.
  destruct (drop_spaces_split s) as [sp [Hs _]]. intros H. rewrite Hs. apply in_or_app. now right.
Qed.

Lemma trim_incl (s : jstr) (c : Z) : In c (trim s) -> In c s.
Proof.
  unfold trim. intros H. apply in_rev in H. apply drop_spaces_incl in H.
  apply in_rev in H. apply drop_spaces_incl in H. exact H.
Qed.

Lemma trim_length (s : jstr) : (List.length (trim s) <= List.length s)%nat.
Proof.
  unfold trim. rewrite length_rev.
  destruct (drop_spaces_split s) as [sp [Hs _]].
  destruct (drop_spaces_split (rev (drop_spaces s))) as [sp' [Hs' _]].
  assert (H1 : List.length s = (List.length sp + List.length (drop_spaces s))%nat)
    by (rewrite Hs at 1; apply length_app).
  assert (H2 : List.length (rev (drop_spaces s))
               = (List.length sp' + List.length (drop_spaces (rev (drop_spaces s))))%nat)
    by (rewrite Hs' at 1; apply length_app).
  rewrite length_rev in H2. lia.
Qed.

Lemma trim_no_space (s : jstr) : forallb (fun c => negb (is_js_space c)) s = true -> trim s = s.
Proof.
  intros H. unfold trim.
  assert (Hd : forall t, forallb (fun c => negb (is_js_space c)) t = true -> drop_spaces t = t).
  { intros [|c t] Ht; [reflexivity|]. simpl in Ht. apply andb_true_iff in Ht as [Hc _].
    apply drop_spaces_id. simpl. destruct (is_js_space c); [discriminate|reflexivity]. }
  rewrite (Hd s H), Hd, rev_involutive; [reflexivity|].
  apply forallb_forall. intros c Hc. apply in_rev in Hc.
  exact (proj1 (forallb_forall _ s) H c Hc).
Qed.

Lemma replace_all_in (x : Z) (r s : jstr) (c : Z) :
  In c (replace_all x r s) -> (In c s /\ c <> x) \/ In c r.
Proof.
  unfold replace_all. intros H. apply in_flat_map in H as [d [Hd Hc]].
  destruct (Z.eqb_spec d x) as [->|Hne]; [now right|].
  destruct Hc as [<-|[]]. left. split; assumption.
Qed.

Lemma replace_all_id (x : Z) (r s : jstr) : ~ In x s -> replace_all x r s = s.
Proof.
  unfold replace_all. induction s as [|d s IH]; intros H; simpl; [reflexivity|].
  destruct (Z.eqb_spec d x) as [->|Hne]; [exfalso; apply H; now left|].
  simpl. f_equal. apply IH. intros Hx. apply H. now right.
Qed.

Lemma sanitize_chars (s : jstr) (c : Z) :
  In c (sanitizeInput s) -> (In c s /\ ~ In c markup_chars) \/
  In c (js "&lt;" ++ js "&gt;" ++ js "&quot;" ++ js "&#x27;" ++ js "&#x2F;").
Proof.
  unfold sanitizeInput. intros H. apply trim_incl in H.
  repeat rewrite in_app_iff.
  apply replace_all_in in H as [[H H5]|H]; [|tauto].
  apply replace_all_in in H as [[H H4]|H]; [|tauto].
  apply replace_all_in in H as [[H H3]|H]; [|tauto].
  apply replace_all_in in H as [[H H2]|H]; [|tauto].
  apply replace_all_in in H as [[H H1]|H]; [|tauto].
  left. split; [exact H|]. unfold markup_chars. simpl. intuition congruence.
Qed.

(** [sanitizeInput]'s output contains none of [<], [>], the double quote,
    the single quote or [/]. *)
Theorem sanitizeInput_no_markup (s : jstr) (c : Z) :
  In c (sanitizeInput s) -> ~ In c markup_chars.
Proof.
  intros H. apply sanitize_chars in H as [[_ H]|H]; [exact H|].
  vm_compute in H. unfold markup_chars.
  repeat (destruct H as [<-|H]; [simpl; intuition discriminate|]). destruct H.
Qed.

Lemma sanitize_out_free (s : jstr) (x : Z) : In x markup_chars -> ~ In x (sanitizeInput s).
Proof. intros Hx Hin. exact (sanitizeInput_no_markup s x Hin Hx). Qed.

(** Sanitizing twice gives the same string as sanitizing once. *)
Theorem sanitizeInput_idempotent (s : jstr) :
  sanitizeInput (sanitizeInput s) = sanitizeInput s.
Proof.
  set (u := sanitizeInput s).
  assert (Hu : forall x, In x markup_chars -> ~ In x u) by (intros x Hx; apply sanitize_out_free, Hx).
  unfold sanitizeInput at 1.
  rewrite (replace_all_id 60), (replace_all_id 62), (replace_all_id 34), (replace_all_id 39),
    (replace_all_id 47); try (apply Hu; unfold markup_chars; simpl; tauto).
  unfold u, sanitizeInput. apply trim_idem.
Qed.

Lemma name_char_plain (c : Z) :
  name_char c = true -> ~ In c markup_chars /\ is_js_space c = false.
Proof.
  unfold name_char, markup_chars, is_js_space. intros H. split.
  - simpl. intros Hc. repeat (destruct Hc as [<-|Hc]; [discriminate H|]). destruct Hc.
  - repeat rewrite orb_true_iff in H. repeat rewrite andb_true_iff in H.
    repeat rewrite Z.leb_le in H. repeat rewrite Z.eqb_eq in H.
    simpl existsb. repeat (rewrite (proj2 (Z.eqb_neq _ _)); [|lia]). reflexivity.
Qed.

(** A name accepted by [validateInput.userName] is left unchanged by
    [sanitizeInput]. *)
Theorem sanitizeInput_valid_name (userName : jstr) :
  validUserName userName = true -> sanitizeInput userName = userName.
Proof.
  unfold validUserName. intros H. repeat rewrite andb_true_iff in H.
  destruct H as [[[_ _] Hc] _].
  assert (Hall : forall c, In c userName -> ~ In c markup_chars /\ is_js_space c = false).
  { intros c Hin. apply name_char_plain. exact (proj1 (forallb_forall _ _) Hc c Hin). }
  unfold sanitizeInput.
  rewrite (replace_all_id 60), (replace_all_id 62), (replace_all_id 34), (replace_all_id 39),
    (replace_all_id 47);
    try (intros Hin; apply (proj1 (Hall _ Hin)); unfold markup_chars; simpl; tauto).
  apply trim_no_space. apply forallb_forall. intros c Hin.
  rewrite (proj2 (Hall c Hin)). reflexivity.
Qed.

(** ** Requests carrying a photo id or a user name *)

(** [toggleLike], [toggleDislike] and [getRoomPhotosWithUserStatus] send a
    request exactly when the id and the user name pass [validateInput], and
    the [user_name] they send is the given name itself: sanitization never
    alters a name that passed validation. *)
Theorem api_requests_send_name_verbatim (photoId roomId userName : jstr) :
  toggleLike photoId userName
  = (if validRoomId photoId && validUserName userName
     then Ok (ApiPost (js "/likes/" ++ photoId) [(js "user_name", userName)])
     else Throw (client_error (if validRoomId photoId then js "Invalid username"
                              else js "Invalid photo ID format")))
  /\ toggleDislike photoId userName
  = (if validRoomId photoId && validUserName userName
     then Ok (ApiPost (js "/dislikes/" ++ photoId) [(js "user_name", userName)])
     else Throw (client_error (if validRoomId photoId then js "Invalid username"
                              else js "Invalid photo ID format")))
  /\ getRoomPhotosWithUserStatus roomId userName
  = (if validRoomId roomId && validUserName userName
     then Ok (ApiGet (js "/photos/" ++ roomId ++ js "/with-user-status") [(js "user_name", userName)])
     else Throw (client_error (if validRoomId roomId then js "Invalid username"
                              else js "Invalid room ID format"))).
Proof.
  unfold toggleLike, toggleDislike, getRoomPhotosWithUserStatus.
  destruct (validUserName userName) eqn:Eu.
  - rewrite (sanitizeInput_valid_name userName Eu).
    destruct (validRoomId photoId), (validRoomId roomId); repeat split.
  - destruct (validRoomId photoId), (validRoomId roomId); repeat split.
Qed.

(** Which photo request the room page issues for a stored user name: a
    valid name gets the request with the user's like status; a name whose
    trimmed length is at least 2 but which fails [validateInput.userName]
    (a space inside it, a character outside the allowed set, more than 50
    units) makes the request throw before anything is sent, although the
    plain photo request would have succeeded; a shorter name gets the plain
    request. *)
Theorem photosRequest_by_name (roomId u : jstr) (Hroom : validRoomId roomId = true) :
  (validUserName u = true ->
     photosRequest roomId (Some u)
     = Ok (ApiGet (js "/photos/" ++ roomId ++ js "/with-user-status") [(js "user_name", u)]))
  /\ ((2 <= List.length (trim u))%nat -> validUserName u = false ->
        photosRequest roomId (Some u) = Throw (client_error (js "Invalid username"))
        /\ getRoomPhotos roomId = Ok (ApiGet (js "/photos/" ++ roomId) []))
  /\ ((List.length (trim u) < 2)%nat ->
        photosRequest roomId (Some u) = Ok (ApiGet (js "/photos/" ++ roomId) [])).
Proof.
  assert (Htr : js_truthy u = true -> forall n, js_truthy u && n = n) by (intros -> n; reflexivity).
  assert (Hlen : (2 <= List.length (trim u))%nat -> js_truthy u = true).
  { pose proof (trim_length u). destruct u; simpl in *; [lia|reflexivity]. }
  unfold photosRequest, getRoomPhotosWithUserStatus, getRoomPhotos. rewrite Hroom. simpl negb.
  cbv iota. split; [|split].
  - intros Hv. rewrite (sanitizeInput_valid_name u Hv).
    assert (Hl : (2 <= List.length (trim u))%nat).
    { rewrite (trim_no_space u).
      - unfold validUserName in Hv. repeat rewrite andb_true_iff in Hv.
        destruct Hv as [[[H2 _] _] _]. apply Z.leb_le in H2. lia.
      - apply forallb_forall. intros c Hc. unfold validUserName in Hv.
        repeat rewrite andb_true_iff in Hv. destruct Hv as [[[_ _] Hf] _].
        rewrite (proj2 (name_char_plain c (proj1 (forallb_forall _ _) Hf c Hc))). reflexivity. }
    assert (Hz : (2 <=? Z.of_nat (List.length (trim u))) = true) by (apply Z.leb_le; lia).
    rewrite (Htr (Hlen Hl)), Hz, Hv. reflexivity.
  - intros Hl Hv.
    assert (Hz : (2 <=? Z.of_nat (List.length (trim u))) = true) by (apply Z.leb_le; lia).
    rewrite (Htr (Hlen Hl)), Hz, Hv.
    split; reflexivity.
  - intros Hl. replace (2 <=? Z.of_nat (List.length (trim u))) with false
      by (symmetry; apply Z.leb_gt; lia).
    rewrite andb_false_r. reflexivity.
Qed.

Lemma photosRequest_by_name_witness :
  validRoomId sampleRoomId = true
  /\ photosRequest sampleRoomId (Some (js "al ice")) = Throw (client_error (js "Invalid username")).
Proof.
  assert (Hr : validRoomId sampleRoomId = true) by (vm_compute; reflexivity).
  split; [exact Hr|].
  destruct (photosRequest_by_name sampleRoomId (js "al ice") Hr) as [_ [H2 _]].
  assert (Hl : (2 <= List.length (trim (js "al ice")))%nat) by (vm_compute; lia).
  assert (Hv : validUserName (js "al ice") = false) by (vm_compute; reflexivity).
  exact (proj1 (H2 Hl Hv)).
Defined.

(** ** The per-room name in localStorage *)

Lemma obj_get_set_same (o : list (jstr * jstr)) (k v : jstr) :
  obj_get (obj_set o k v) k = Some v.
Proof.
  unfold obj_set. destruct (existsb (fun kv => jeqb k (fst kv)) o) eqn:E.
  - induction o as [|[k' v'] o IH]; simpl in *; [discriminate|].
    destruct (jeqb k k') eqn:Ek; simpl.
    + rewrite Ek. reflexivity.
    + rewrite Ek. apply IH. exact E.
  - induction o as [|[k' v'] o IH]; simpl in *; [rewrite jeqb_refl; reflexivity|].
    destruct (jeqb k k') eqn:Ek; [discriminate|]. apply IH. exact E.
Qed.

Lemma obj_get_set_other (o : list (jstr * jstr)) (k v r : jstr) :
  r <> k -> obj_get (obj_set o k v) r = obj_get o r.
Proof.
  intros Hne. unfold obj_set.
  assert (Hrk : jeqb r k = false) by (apply not_true_is_false; rewrite jeqb_eq; exact Hne).
  destruct (existsb (fun kv => jeqb k (fst kv)) o).
  - induction o as [|[k' v'] o IH]; simpl; [reflexivity|].
    destruct (jeqb k k') eqn:Ek; simpl.
    + apply jeqb_eq in Ek. subst k'. rewrite Hrk. exact IH.
    + destruct (jeqb r k'); [reflexivity|exact IH].
  - induction o as [|[k' v'] o IH]; simpl; [rewrite Hrk; reflexivity|].
    destruct (jeqb r k'); [reflexivity|exact IH].
Qed.

(** Leaving RoomPage's name field with a non-blank value stores its
    trimmed text for this room and as the global name, and the field's
    default value for this room is then that text; names stored for other
    rooms are untouched.  The stored name has no leading or trailing white
    space. *)
Theorem nameOnBlur_roundtrip (roomId value : jstr) (st : Storage)
    (Hroom : roomId <> []) (Hname : trim value <> []) :
  let st' := nameOnBlur roomId value st in
  nameDefaultValue roomId st' = trim value
  /\ localUserName st' = Some (trim value) /\ sessionUserName st' = Some (trim value)
  /\ trim (trim value) = trim value
  /\ (forall r, r <> roomId -> obj_get (roomUsers st') r = obj_get (roomUsers st) r).
Proof.
  cbv zeta. unfold nameOnBlur.
  destruct (trim value) as [|c t] eqn:Et; [congruence|].
  destruct roomId as [|x rid]; [congruence|]. simpl js_truthy. cbv iota. simpl andb.
  split; [|split; [reflexivity|split; [reflexivity|split]]].
  - unfold nameDefaultValue. simpl. rewrite obj_get_set_same. reflexivity.
  - rewrite <- Et. apply trim_idem.
  - intros r Hr. simpl. apply obj_get_set_other. exact Hr.
Qed.

Lemma nameOnBlur_roundtrip_witness :
  js "room-1" <> [] /\ trim (js "  Min Ji ") <> []
  /\ nameDefaultValue (js "room-1") (nameOnBlur (js "room-1") (js "  Min Ji ") (mkStorage [] None None))
     = trim (js "  Min Ji ").
Proof.
  assert (H1 : js "room-1" <> []) by discriminate.
  assert (H2 : trim (js "  Min Ji ") <> []) by (vm_compute; discriminate).
  split; [exact H1|split; [exact H2|]].
  exact (proj1 (nameOnBlur_roundtrip (js "room-1") (js "  Min Ji ") (mkStorage [] None None) H1 H2)).
Defined.

(** ** Gallery selection and batch download *)

Lemma set_has_delete_gen (s : list jstr) (x q : jstr) :
  set_has (set_delete s x) q = set_has s q && negb (jeqb q x).
Proof.
  unfold set_has, set_delete. induction s as [|y s IH]; simpl; [reflexivity|].
  destruct (jeqb y x) eqn:Eyx; simpl.
  - apply jeqb_eq in Eyx. subst y. rewrite IH.
    destruct (jeqb q x) eqn:Eq; simpl; [rewrite andb_false_r; reflexivity|].
    rewrite andb_true_r. reflexivity.
  - rewrite IH. destruct (jeqb q y) eqn:Eqy; simpl; [|reflexivity].
    apply jeqb_eq in Eqy. subst q. rewrite Eyx. reflexivity.
Qed.

Lemma set_has_add_gen (s : list jstr) (x q : jstr) :
  set_has (set_add s x) q = set_has s q || jeqb q x.
Proof.
  unfold set_add. destruct (set_has s x) eqn:Ex.
  - destruct (jeqb q x) eqn:Eq; [|rewrite orb_false_r; reflexivity].
    apply jeqb_eq in Eq. subst q. rewrite Ex. reflexivity.
  - unfold set_has. rewrite existsb_app. simpl. rewrite orb_false_r. reflexivity.
Qed.

(** [handlePhotoSelect(photoId)] flips whether [photoId] is selected and
    leaves every other photo's selection as it was; selecting twice
    restores the selection. *)
Theorem handlePhotoSelect_toggles (photoId q : jstr) (prev : list jstr) :
  set_has (handlePhotoSelect photoId prev) q
  = (if jeqb q photoId then negb (set_has prev q) else set_has prev q)
  /\ set_has (handlePhotoSelect photoId (handlePhotoSelect photoId prev)) q = set_has prev q.
Proof.
  assert (Hstep : forall s, set_has (handlePhotoSelect photoId s) q
                            = if jeqb q photoId then negb (set_has s q) else set_has s q).
  { intros s. unfold handlePhotoSelect.
    destruct (jeqb q photoId) eqn:Eq.
    - apply jeqb_eq in Eq. subst q. apply toggle_flip.
    - destruct (set_has s photoId);
        [rewrite set_has_delete_gen, Eq; apply andb_true_r
        |rewrite set_has_add_gen, Eq; apply orb_false_r]. }
  split; [apply Hstep|]. rewrite Hstep, Hstep.
  destruct (jeqb q photoId); [apply negb_involutive|reflexivity].
Qed.

(** [handleBatchDownload] with nothing selected only alerts.  Otherwise it
    acts on exactly the photos that are selected and visible (so a selected
    photo hidden by a dislike is skipped), in gallery order, through tabs on
    iOS and downloads elsewhere, and clears the selection. *)
Theorem handleBatchDownload_selected_visible (ios : bool) (selected : list jstr)
    (photos : list Photo) :
  (selected = [] -> handleBatchDownload ios selected photos = (NothingSelected, selected))
  /\ (selected <> [] ->
      exists ps, handleBatchDownload ios selected photos
                 = ((if ios then IOSTabs ps else Downloads ps), [])
      /\ ps = filter (fun p => set_has selected (photo_id p)) (visiblePhotos photos)
      /\ forall p, In p ps <-> In p photos /\ dislike_count p = 0
                               /\ set_has selected (photo_id p) = true).
Proof.
  unfold handleBatchDownload. split.
  - intros ->. reflexivity.
  - intros Hne. destruct selected as [|x s]; [congruence|]. simpl Nat.eqb. cbv iota.
    eexists. split; [reflexivity|]. split; [reflexivity|].
    intros p. rewrite filter_In. unfold visiblePhotos. rewrite filter_In, Z.eqb_eq. tauto.
Qed.

(** ** Refreshing the gallery's local photos *)

Lemma jleb_total (a b : jstr) : jleb a b = false -> jleb b a = true.
Proof.
  revert b. induction a as [|x a IH]; intros [|y b]; simpl; try discriminate; try reflexivity.
  intros H. apply orb_false_iff in H as [H1 H2]. apply Z.ltb_ge in H1.
  destruct (Z.eqb_spec x y) as [->|Hne]; simpl in H2.
  - rewrite Z.ltb_irrefl, Z.eqb_refl. simpl. apply IH, H2.
  - apply orb_true_iff. left. apply Z.ltb_lt. lia.
Qed.

Lemma jleb_antisym (a b : jstr) : jleb a b = true -> jleb b a = true -> a = b.
Proof.
  revert b. induction a as [|x a IH]; intros [|y b]; simpl; try discriminate; try reflexivity.
  intros H1 H2. apply orb_true_iff in H1, H2.
  destruct H1 as [H1|H1], H2 as [H2|H2]; rewrite ?andb_true_iff, ?Z.ltb_lt, ?Z.eqb_eq in *.
  - lia.
  - lia.
  - lia.
  - destruct H1 as [-> H1], H2 as [_ H2]. f_equal. apply IH; assumption.
Qed.

Lemma jleb_trans (a b c : jstr) : jleb a b = true -> jleb b c = true -> jleb a c = true.
Proof.
  revert b c. induction a as [|x a IH]; intros [|y b] [|z c]; simpl; try discriminate; try reflexivity.
  intros H1 H2. apply orb_true_iff in H1, H2. apply orb_true_iff.
  destruct H1 as [H1|H1], H2 as [H2|H2]; rewrite ?andb_true_iff, ?Z.ltb_lt, ?Z.eqb_eq in *.
  - left. lia.
  - left. lia.
  - left. lia.
  - right. destruct H1 as [-> H1], H2 as [-> H2].
    split; [reflexivity|]. exact (IH _ _ H1 H2).
Qed.

Lemma insert_sorted_comm (x y : jstr) (l : list jstr) :
  insert_sorted x (insert_sorted y l) = insert_sorted y (insert_sorted x l).
Proof.
  induction l as [|z l IH]; simpl.
  - destruct (jleb x y) eqn:Exy, (jleb y x) eqn:Eyx; simpl; rewrite ?Exy, ?Eyx; try reflexivity.
    + rewrite (jleb_antisym x y Exy Eyx). reflexivity.
    + apply jleb_total in Exy. congruence.
  - destruct (jleb y z) eqn:Eyz, (jleb x z) eqn:Exz; simpl; rewrite ?Eyz, ?Exz.
    + destruct (jleb x y) eqn:Exy, (jleb y x) eqn:Eyx; simpl; rewrite ?Exz, ?Eyz; try reflexivity.
      * rewrite (jleb_antisym x y Exy Eyx). reflexivity.
      * apply jleb_total in Exy. congruence.
    + destruct (jleb x y) eqn:Exy.
      * rewrite (jleb_trans x y z Exy Eyz) in Exz. discriminate.
      * simpl. rewrite ?Exz. reflexivity.
    + destruct (jleb y x) eqn:Eyx.
      * rewrite (jleb_trans y x z Eyx Exz) in Eyz. discriminate.
      * simpl. rewrite ?Eyz. reflexivity.
    + rewrite IH. reflexivity.
Qed.

Lemma js_sort_perm (l l' : list jstr) : Permutation l l' -> js_sort l = js_sort l'.
Proof.
  unfold js_sort. induction 1; simpl.
  - reflexivity.
  - rewrite IHPermutation. reflexivity.
  - apply insert_sorted_comm.
  - congruence.
Qed.

(** When the refreshed [photos] hold the same photo ids as [localPhotos]
    (in any order), the gallery keeps its [localPhotos]: like and dislike
    counts coming from the server are not taken over. *)
Theorem syncLocalPhotos_keeps_same_ids (photos local : list Photo)
    (Hids : Permutation (map photo_id photos) (map photo_id local)) :
  syncLocalPhotos photos local = local.
Proof.
  unfold syncLocalPhotos, photoIdsKey. rewrite (js_sort_perm _ _ Hids), jeqb_refl. reflexivity.
Qed.

Lemma syncLocalPhotos_keeps_same_ids_witness :
  let fresh := [mkPhoto (js "b") 4 0; mkPhoto (js "a") 2 1] in
  let local := [mkPhoto (js "a") 1 0; mkPhoto (js "b") 3 0] in
  Permutation (map photo_id fresh) (map photo_id local) /\ syncLocalPhotos fresh local = local.
Proof.
  cbv zeta.
  assert (Hp : Permutation (map photo_id [mkPhoto (js "b") 4 0; mkPhoto (js "a") 2 1])
                           (map photo_id [mkPhoto (js "a") 1 0; mkPhoto (js "b") 3 0]))
    by (simpl; apply perm_swap).
  split; [exact Hp|]. exact (syncLocalPhotos_keeps_same_ids _ _ Hp).
Defined.

(** ** Device detection *)

Lemma startsWith_map (f : Z -> Z) (s p : jstr) :
  startsWith s p = true -> startsWith (map f s) (map f p) = true.
Proof.
  revert s. induction p as [|c p IH]; intros [|d s]; simpl; try discriminate; try reflexivity.
  intros H. apply andb_true_iff in H as [H1 H2]. apply Z.eqb_eq in H1. subst d.
  rewrite Z.eqb_refl. simpl. apply IH, H2.
Qed.

Lemma includes_map (f : Z -> Z) (s p : jstr) :
  includes s p = true -> includes (map f s) (map f p) = true.
Proof.
  induction s as [|d s IH]; intros H; simpl in *.
  - rewrite orb_false_r in *. apply (startsWith_map f [] p) in H. exact H.
  - apply orb_true_iff in H as [H|H].
    + apply orb_true_iff. left. apply (startsWith_map f (d :: s) p) in H. exact H.
    + apply orb_true_iff. right. apply IH, H.
Qed.

(** Every user agent [isIOS] recognises (the gallery's switch between
    opening tabs and downloading) is also recognised by [isMobile]. *)
Theorem isIOS_isMobile (userAgent : jstr) : isIOS userAgent = true -> isMobile userAgent = true.
Proof.
  unfold isIOS, isMobile. intros H. simpl existsb.
  repeat rewrite orb_true_iff in H. repeat rewrite orb_true_iff.
  destruct H as [[H|H]|H]; apply (includes_map ascii_lower) in H; tauto.
Qed.

Lemma isIOS_isMobile_witness :
  isIOS (js "Mozilla/5.0 (iPhone; CPU iPhone OS 17_0)") = true
  /\ isMobile (js "Mozilla/5.0 (iPhone; CPU iPhone OS 17_0)") = true.
Proof.
  assert (H : isIOS (js "Mozilla/5.0 (iPhone; CPU iPhone OS 17_0)") = true) by (vm_compute; reflexivity).
  split; [exact H|]. exact (isIOS_isMobile _ H).
Defined.

(** ** processFiles, upload progress and the upload alert *)

Lemma processFiles_lengths (l a : list File) (b : list jstr) :
  let sel := fold_left processFiles_step l (mkSelection a b) in
  (List.length (validFiles sel) + List.length (validationErrors sel)
   = List.length a + List.length b + List.length l)%nat.
Proof.
  cbv zeta. revert a b. induction l as [|x l IH]; intros a b; simpl; [lia|].
  assert (Hstep : processFiles_step (mkSelection a b) x = mkSelection (a ++ [x]) b
                  \/ exists e, processFiles_step (mkSelection a b) x = mkSelection a (b ++ [e])).
  { unfold processFiles_step. destruct (valid (validateFile x)); [left|right; eexists]; reflexivity. }
  destruct Hstep as [->|[e ->]]; rewrite IH, length_app; simpl; lia.
Qed.

(** [processFiles] splits the dropped or chosen files: each is either kept
    (exactly the ones passing [validateInput.file], in order) or reported by
    one error line.  When none passes, the previous selection stays
    selected. *)
Theorem processFiles_partition (prev : option (list File)) (files : list File) :
  (List.length (validFiles (processFiles files)) + List.length (validationErrors (processFiles files))
   = List.length files)%nat
  /\ validFiles (processFiles files) = filter (fun f => valid (validateFile f)) files
  /\ ((forall f, In f files -> valid (validateFile f) = false) ->
      processFiles_selected prev files = prev).
Proof.
  assert (Hv : validFiles (processFiles files) = filter (fun f => valid (validateFile f)) files)
    by exact (proj1 (processFiles_fold files [] [])).
  split; [|split; [exact Hv|]].
  - pose proof (processFiles_lengths files [] []) as H. simpl in H. exact H.
  - intros Hall. unfold processFiles_selected. rewrite Hv.
    assert (Hn : filter (fun f => valid (validateFile f)) files = []).
    { induction files as [|f fs IH]; [reflexivity|]. simpl.
      rewrite (Hall f (or_introl eq_refl)). apply IH.
      - exact (proj1 (processFiles_fold fs [] [])).
      - intros g Hg. apply Hall. right. exact Hg. }
    rewrite Hn. reflexivity.
Qed.

Lemma flat_map_errors_length (upload : File -> Res unit) (l : list File) :
  List.length (flat_map (fun f => match upload f with
                                 | Ok _ => [] | Throw e => [error_line f e] end) l)
  = (List.length (filter (fun f => match upload f with
                                  | Throw e => is_duplicate e | _ => false end) l)
     + List.length (filter (fun f => match upload f with
                                    | Throw e => negb (is_duplicate e) | _ => false end) l))%nat.
Proof.
  induction l as [|f l IH]; simpl; [reflexivity|].
  destruct (upload f) as [u|e]; simpl; [exact IH|].
  destruct (is_duplicate e); simpl; rewrite IH; lia.
Qed.

Lemma filter_three (upload : File -> Res unit) (l : list File) :
  (List.length (filter (fun f => match upload f with Ok _ => true | _ => false end) l)
   + List.length (filter (fun f => match upload f with
                                   | Throw e => is_duplicate e | _ => false end) l)
   + List.length (filter (fun f => match upload f with
                                   | Throw e => negb (is_duplicate e) | _ => false end) l)
   = List.length l)%nat.
Proof.
  induction l as [|f l IH]; simpl; [reflexivity|].
  destruct (upload f) as [u|e]; simpl; [lia|].
  destruct (is_duplicate e); simpl; lia.
Qed.

(** The progress numerator of [uploadFilesInBatches] after the last batch
    is the number of files plus the number of duplicates (a 409 counts
    both in [skippedFiles] and in [errors]); so the progress bar passes
    100% exactly when some file was rejected as a duplicate. *)
Theorem uploadFilesInBatches_progress (upload : File -> Res unit) (files : list File) :
  let t := fst (uploadFilesInBatches upload files) in
  processedFiles t
  = (List.length files
     + List.length (filter (fun f => match upload f with
                                     | Throw e => is_duplicate e | _ => false end) files))%nat
  /\ ((List.length files < processedFiles t)%nat <->
      exists f, In f files /\ match upload f with Throw e => is_duplicate e = true | _ => False end).
Proof.
  cbv zeta.
  assert (Hp : processedFiles (fst (uploadFilesInBatches upload files))
               = (List.length files
                  + List.length (filter (fun f => match upload f with
                                                  | Throw e => is_duplicate e | _ => false end) files))%nat).
  { rewrite uploadFilesInBatches_spec, tally_fold. unfold processedFiles. simpl.
    rewrite flat_map_errors_length. pose proof (filter_three upload files) as H3. lia. }
  split; [exact Hp|]. rewrite Hp.
  assert (Hpos : forall (p : File -> bool) (l : list File),
             (0 < List.length (filter p l))%nat <-> exists x, In x l /\ p x = true).
  { intros p l. split.
    - intros H. destruct (filter p l) as [|x r] eqn:E; [simpl in H; lia|].
      exists x. apply filter_In. rewrite E. now left.
    - intros [x Hx]. apply filter_In in Hx.
      destruct (filter p l); [destruct Hx|simpl; lia]. }
  assert (Hiff : (List.length files < List.length files
                    + List.length (filter (fun f => match upload f with
                                                    | Throw e => is_duplicate e | _ => false end) files))%nat
                 <-> (0 < List.length (filter (fun f => match upload f with
                                                       | Throw e => is_duplicate e | _ => false end) files))%nat)
    by lia.
  rewrite Hiff, Hpos. split; intros [f [Hin Hd]]; exists f; split; try exact Hin;
    destruct (upload f); first [exact Hd | discriminate Hd | destruct Hd].
Qed.

Lemma upload_lines_nonempty (t : BatchTally) :
  (skippedFiles t <= List.length (errors t))%nat ->
  (0 < completedFiles t + List.length (errors t))%nat -> upload_lines t <> [].
Proof.
  intros Hs Hp. unfold upload_lines.
  destruct (Nat.ltb_spec 0 (completedFiles t)); [discriminate|].
  destruct (Nat.ltb_spec 0 (skippedFiles t)); [discriminate|].
  destruct (Nat.ltb_spec (skippedFiles t) (List.length (errors t))); [discriminate|].
  lia.
Qed.

Lemma batch_lines_nonempty (upload : File -> Res unit) (files : list File) :
  files <> [] -> upload_lines (fst (uploadFilesInBatches upload files)) <> [].
Proof.
  intros Hne. apply upload_lines_nonempty; rewrite uploadFilesInBatches_spec, tally_fold; simpl;
    rewrite flat_map_errors_length.
  - lia.
  - pose proof (filter_three upload files) as H3.
    assert (Hl : (0 < List.length files)%nat) by (destruct files; simpl; [congruence|lia]).
    lia.
Qed.

(** [handleUpload] never falls back to the alert "no new photos to upload"
    ('업로드할 새로운 사진이 없습니다.'): with no file selected it returns
    silently, and once the name and room checks pass every uploaded file
    ends up in the message as uploaded, skipped as a duplicate, or failed. *)
Theorem handleUpload_never_no_new_photos (post : File -> Res unit) (roomId : jstr)
    (storedUserName : option jstr) (selectedFiles : option (list File)) :
  handleUpload post roomId storedUserName selectedFiles <> Some AlertNoNewPhotos.
Proof.
  unfold handleUpload.
  destruct selectedFiles as [[|f fs]|]; try discriminate.
  destruct storedUserName as [[|c u]|]; try discriminate.
  destruct (negb (validUserName (c :: u))); [discriminate|].
  destruct (negb (validRoomId roomId)); [discriminate|].
  pose proof (batch_lines_nonempty (fun file => snd (uploadPhoto post roomId file (c :: u))) (f :: fs)
                ltac:(discriminate)) as Hne.
  destruct (upload_lines _); [congruence|discriminate].
Qed.

(** ** Room and photo ids *)

Lemma hex_run_split (n : nat) (s r : jstr) :
  hex_run n s = Some r -> exists p, s = p ++ r /\ List.length p = n /\ forallb is_hex p = true.
Proof.
  revert s. induction n as [|n IH]; intros s H; simpl in H.
  - injection H as <-. exists []. repeat split.
  - destruct s as [|c s]; [discriminate|]. destruct (is_hex c) eqn:Ec; [|discriminate].
    destruct (IH s H) as [p [-> [Hl Hh]]]. exists (c :: p). simpl. rewrite Ec, Hl, Hh. repeat split.
Qed.

Lemma nth_error_group (p r : jstr) (d : Z) (i : nat) (c : Z) :
  nth_error (p ++ d :: r) i = Some c ->
  ((i < List.length p)%nat /\ In c p) \/ (i = List.length p /\ c = d)
  \/ ((List.length p < i)%nat /\ nth_error r (i - List.length p - 1) = Some c).
Proof.
  intros H. destruct (Nat.lt_ge_cases i (List.length p)) as [Hlt|Hge].
  - left. rewrite nth_error_app1 in H by exact Hlt. split; [exact Hlt|].
    eapply nth_error_In. exact H.
  - rewrite nth_error_app2 in H by exact Hge.
    destruct (i - List.length p)%nat as [|k] eqn:Ek; simpl in H.
    + right; left. split; [lia|congruence].
    + right; right. split; [lia|]. replace (S k - 1)%nat with k by lia. exact H.
Qed.

(** An id accepted by [validateInput.roomId] (room ids, and photo ids in
    the like, dislike and download calls) is 36 code units long, has [-]
    at positions 8, 13, 18 and 23 and a hexadecimal digit (either case)
    everywhere else. *)
Theorem validRoomId_shape (s : jstr) :
  validRoomId s = true ->
  List.length s = 36%nat
  /\ (forall i c, nth_error s i = Some c ->
        if existsb (Nat.eqb i) [8; 13; 18; 23]%nat then c = dash else is_hex c = true).
Proof.
  unfold validRoomId, uuid_groups. intros H.
  destruct (hex_run 8 s) as [[|d1 r1]|] eqn:E1; try discriminate.
  apply andb_true_iff in H as [D1 H]. apply Z.eqb_eq in D1. subst d1.
  destruct (hex_run 4 r1) as [[|d2 r2]|] eqn:E2; try discriminate.
  apply andb_true_iff in H as [D2 H]. apply Z.eqb_eq in D2. subst d2.
  destruct (hex_run 4 r2) as [[|d3 r3]|] eqn:E3; try discriminate.
  apply andb_true_iff in H as [D3 H]. apply Z.eqb_eq in D3. subst d3.
  destruct (hex_run 4 r3) as [[|d4 r4]|] eqn:E4; try discriminate.
  apply andb_true_iff in H as [D4 H]. apply Z.eqb_eq in D4. subst d4.
  destruct (hex_run 12 r4) as [[|x r5]|] eqn:E5; try discriminate.
  apply hex_run_split in E1 as [p1 [-> [L1 H1]]].
  apply hex_run_split in E2 as [p2 [-> [L2 H2]]].
  apply hex_run_split in E3 as [p3 [-> [L3 H3]]].
  apply hex_run_split in E4 as [p4 [-> [L4 H4]]].
  apply hex_run_split in E5 as [p5 [-> [L5 H5]]].
  rewrite app_nil_r. split.
  - repeat (rewrite length_app; simpl). lia.
  - assert (Hx : forall p c, forallb is_hex p = true -> In c p -> is_hex c = true)
      by (intros p c Hp Hc; exact (proj1 (forallb_forall _ _) Hp c Hc)).
    intros i c Hi.
    apply nth_error_group in Hi as [[Hl Hc]|[[-> ->]|[Hl Hi]]];
      [rewrite L1 in Hl; destruct i as [|[|[|[|[|[|[|[|]]]]]]]]; simpl; try lia; exact (Hx _ _ H1 Hc)
      |rewrite L1; reflexivity|].
    apply nth_error_group in Hi as [[Hl2 Hc]|[[Hq ->]|[Hl2 Hi]]]; rewrite ?L1, ?L2 in *.
    { assert (Hr : existsb (Nat.eqb i) [8; 13; 18; 23]%nat = false).
      { simpl. repeat (rewrite (proj2 (Nat.eqb_neq _ _)); [|lia]). reflexivity. }
      rewrite Hr. exact (Hx _ _ H2 Hc). }
    { replace i with 13%nat by lia. reflexivity. }
    apply nth_error_group in Hi as [[Hl3 Hc]|[[Hq ->]|[Hl3 Hi]]]; rewrite ?L3 in *.
    { assert (Hr : existsb (Nat.eqb i) [8; 13; 18; 23]%nat = false).
      { simpl. repeat (rewrite (proj2 (Nat.eqb_neq _ _)); [|lia]). reflexivity. }
      rewrite Hr. exact (Hx _ _ H3 Hc). }
    { replace i with 18%nat by lia. reflexivity. }
    apply nth_error_group in Hi as [[Hl4 Hc]|[[Hq ->]|[Hl4 Hi]]]; rewrite ?L4 in *.
    { assert (Hr : existsb (Nat.eqb i) [8; 13; 18; 23]%nat = false).
      { simpl. repeat (rewrite (proj2 (Nat.eqb_neq _ _)); [|lia]). reflexivity. }
      rewrite Hr. exact (Hx _ _ H4 Hc). }
    { replace i with 23%nat by lia. reflexivity. }
    assert (Hc : In c p5) by (eapply nth_error_In; exact Hi).
    assert (Hr : existsb (Nat.eqb i) [8; 13; 18; 23]%nat = false).
    { simpl. repeat (rewrite (proj2 (Nat.eqb_neq _ _)); [|lia]). reflexivity. }
    rewrite Hr. exact (Hx _ _ H5 Hc).
Qed.

Lemma validRoomId_shape_witness :
  validRoomId sampleRoomId = true /\ List.length sampleRoomId = 36%nat.
Proof.
  assert (H : validRoomId sampleRoomId = true) by (vm_compute; reflexivity).
  split; [exact H|]. exact (proj1 (validRoomId_shape sampleRoomId H)).
Defined.

Lemma sanitizeInput_no_markup_witness :
  In 38 (sanitizeInput (js "<b>")) /\ ~ In 38 markup_chars.
Proof.
  assert (H : In 38 (sanitizeInput (js "<b>"))) by (vm_compute; left; reflexivity).
  split; [exact H|]. exact (sanitizeInput_no_markup _ _ H).
Defined.

Lemma sanitizeInput_valid_name_witness :
  validUserName (js "kim_01") = true /\ sanitizeInput (js "kim_01") = js "kim_01".
Proof.
  assert (H : validUserName (js "kim_01") = true) by (vm_compute; reflexivity).
  split; [exact H|]. exact (sanitizeInput_valid_name _ H).
Defined.

(** ** Two reactions from the same render *)

Lemma validUserName_nonempty (u : jstr) : validUserName u = true -> jeqb u [] = false.
Proof.
  unfold validUserName. intros H. repeat rewrite andb_true_iff in H.
  destruct H as [_ H]. apply negb_true_iff, H.
Qed.

(** Two clicks on the like (or dislike) button handled by the same render's
    closure, both requests answered: the user's like (dislike) set returns
    to its state before, but the photo's counter moves twice in the same
    direction (by 2 from the count before), since both updates read the
    set captured at render time. *)
Theorem double_click_same_render (u pid : jstr) (g : Gallery)
    (Hu : validUserName u = true) (Hp : validRoomId pid = true) :
  let gl := handleLike u (userLikes g) true pid (handleLike u (userLikes g) true pid g) in
  let gd := handleDislike u (userDislikes g) true pid
              (handleDislike u (userDislikes g) true pid g) in
  set_has (userLikes gl) pid = set_has (userLikes g) pid
  /\ localPhotos gl
     = map (fun ph => if jeqb (photo_id ph) pid
                      then mkPhoto (photo_id ph)
                             (if set_has (userLikes g) pid then like_count ph - 2
                              else like_count ph + 2) (dislike_count ph)
                      else ph) (localPhotos g)
  /\ set_has (userDislikes gd) pid = set_has (userDislikes g) pid
  /\ localPhotos gd
     = map (fun ph => if jeqb (photo_id ph) pid
                      then mkPhoto (photo_id ph) (like_count ph)
                             (if set_has (userDislikes g) pid then dislike_count ph - 2
                              else dislike_count ph + 2)
                      else ph) (localPhotos g).
Proof.
  cbv zeta. unfold handleLike, handleDislike, toggleRequest.
  rewrite (validUserName_nonempty u Hu), Hu, Hp. simpl.
  split; [|split; [|split]].
  - rewrite !toggle_flip. apply negb_involutive.
  - rewrite map_map. apply map_ext. intros [i lc dc]. simpl.
    destruct (jeqb i pid) eqn:Hi; simpl; rewrite ?Hi; [|reflexivity].
    destruct (set_has (userLikes g) pid); f_equal; lia.
  - rewrite !toggle_flip. apply negb_involutive.
  - rewrite map_map. apply map_ext. intros [i lc dc]. simpl.
    destruct (jeqb i pid) eqn:Hi; simpl; rewrite ?Hi; [|reflexivity].
    destruct (set_has (userDislikes g) pid); f_equal; lia.
Qed.

Lemma double_click_same_render_witness :
  let g := mkGallery [] [] [mkPhoto sampleRoomId 0 0] in
  validUserName sampleUser = true /\ validRoomId sampleRoomId = true
  /\ localPhotos (handleLike sampleUser (userLikes g) true sampleRoomId
                   (handleLike sampleUser (userLikes g) true sampleRoomId g))
     = [mkPhoto sampleRoomId 2 0].
Proof.
  cbv zeta.
  assert (Hu : validUserName sampleUser = true) by (vm_compute; reflexivity).
  assert (Hp : validRoomId sampleRoomId = true) by (vm_compute; reflexivity).
  split; [exact Hu|split; [exact Hp|]].
  rewrite (proj1 (proj2 (double_click_same_render sampleUser sampleRoomId
                           (mkGallery [] [] [mkPhoto sampleRoomId 0 0]) Hu Hp))).
  vm_compute. reflexivity.
Defined.

(** ** Removing a file from the selection *)

Lemma keep_except_shift (index i : nat) (files : list File) :
  keep_except (i + index) i files = firstn index files ++ skipn (S index) files.
Proof.
  revert index i. induction files as [|f fs IH]; intros index i; simpl.
  - destruct index; reflexivity.
  - destruct index as [|index].
    + rewrite Nat.add_0_r, Nat.eqb_refl. simpl.
      destruct fs as [|g gs]; [reflexivity|].
      assert (Hall : forall j l, keep_except i (S i + j)%nat l = l).
      { intros j l. revert j. induction l as [|h l IHl]; intros j; [reflexivity|].
        cbn [keep_except]. rewrite (proj2 (Nat.eqb_neq (S i + j) i)) by lia. cbn [negb].
        f_equal. specialize (IHl (S j)). replace (S (S i + j)) with (S i + S j)%nat by lia.
        exact IHl. }
      pose proof (Hall 0%nat (g :: gs)) as H0. rewrite Nat.add_0_r in H0. exact H0.
    + replace (Nat.eqb i (i + S index)) with false by (symmetry; apply Nat.eqb_neq; lia).
      simpl. f_equal. replace (i + S index)%nat with (S i + index)%nat by lia. apply IH.
Qed.

(** [removeFile(index)] drops exactly the file at [index] from the
    selection and keeps the others in order; an index past the end leaves
    the selection as it was, and removing the only file leaves an empty
    (not a null) selection. *)
Theorem removeFile_drops_index (index : nat) (files : list File) :
  removeFile index (Some files) = Some (firstn index files ++ skipn (S index) files)
  /\ List.length (firstn index files ++ skipn (S index) files)
     = (if Nat.ltb index (List.length files) then List.length files - 1 else List.length files)%nat
  /\ ((List.length files <= index)%nat -> removeFile index (Some files) = Some files)
  /\ removeFile index None = None.
Proof.
  assert (Hr : removeFile index (Some files) = Some (firstn index files ++ skipn (S index) files)).
  { unfold removeFile. f_equal. exact (keep_except_shift index 0 files). }
  split; [exact Hr|split; [|split; [|reflexivity]]].
  - rewrite length_app, length_firstn, length_skipn.
    destruct (Nat.ltb_spec index (List.length files)); lia.
  - intros Hle. rewrite Hr, firstn_all2, skipn_all2 by lia. rewrite app_nil_r. reflexivity.
Qed.
